(** * secret-message-decoder: the extractor and the grid renderer

    A shallow embedding of [parseCharacterGridFromDoc], [renderGridFromCells]
    and [main], with the properties of the specification proved about them.

    Conventions of the embedding:
    - a Go [string] is the sequence of its runes ([gostring]); [TrimSpace],
      [TrimRight], [Atoi] and [Join] act rune by rune, and the length of a
      string is its number of runes, i.e. of display characters;
    - a Go [int] is a [Z] in the 64-bit range, [add_int] wraps around;
    - [make] panics as makeslice of the runtime does, on a negative length
      and on a length beyond the largest allocation; running out of memory
      within that limit is not modelled;
    - a slice is a [list], indexed with stdpp's lookup and insert; the bounds
      check that Go performs before every indexing is written out and ends in
      the panic [IndexOutOfRange];
    - standard output is the list of the [fmt.Println] calls, in order. *)

From Stdlib Require Import ZArith String Ascii.
From stdpp Require Import base tactics option list.

Local Open Scope Z_scope.

(** ** Strings *)

Definition rune := Z.
Definition gostring := list rune.

(** The runes of an ASCII literal, used to write Go string literals. *)
Fixpoint str (s : string) : gostring :=
  match s with
  | EmptyString => []
  | String a s' => Z.of_N (N_of_ascii a) :: str s'
  end.

(** [unicode.IsSpace]: the Latin-1 white space and the other code points of
    the Unicode property White_Space. *)
Definition IsSpace (r : rune) : bool :=
  (9 <=? r) && (r <=? 13)
  || (r =? 32) || (r =? 133) || (r =? 160)
  || (r =? 5760)
  || (8192 <=? r) && (r <=? 8202)
  || (r =? 8232) || (r =? 8233) || (r =? 8239) || (r =? 8287)
  || (r =? 12288).

(** [strings.TrimLeftFunc] and [strings.TrimRightFunc]. *)
Fixpoint TrimLeftFunc (f : rune -> bool) (s : gostring) : gostring :=
  match s with
  | [] => []
  | r :: s' => if f r then TrimLeftFunc f s' else s
  end.

Definition TrimRightFunc (f : rune -> bool) (s : gostring) : gostring :=
  reverse (TrimLeftFunc f (reverse s)).

(** [strings.TrimSpace]. *)
Definition TrimSpace (s : gostring) : gostring :=
  TrimRightFunc IsSpace (TrimLeftFunc IsSpace s).

(** [strings.TrimRight s cutset]: the trailing runes of [s] that occur in
    [cutset] are removed. *)
Definition TrimRight (s cutset : gostring) : gostring :=
  TrimRightFunc (fun r => bool_decide (r ∈ cutset)) s.

(** [strings.Join elems sep]. *)
Fixpoint Join (elems : list gostring) (sep : gostring) : gostring :=
  match elems with
  | [] => []
  | [e] => e
  | e :: rest => e ++ sep ++ Join rest sep
  end.

(** ** Machine integers *)

Definition intSize : Z := 64.
Definition min_int : Z := - 2 ^ (intSize - 1).
Definition max_int : Z := 2 ^ (intSize - 1) - 1.

Definition is_int (z : Z) : Prop := min_int <= z <= max_int.

Definition wrap (z : Z) : Z :=
  (z - min_int) mod 2 ^ intSize + min_int.

Definition add_int (a b : Z) : Z := wrap (a + b).

(** [strconv.Atoi]: an optional sign, then one or more decimal digits; the
    value must fit an [int], otherwise the call returns an error ([None]). *)
Definition digit (r : rune) : option Z :=
  if (48 <=? r) && (r <=? 57) then Some (r - 48) else None.

Fixpoint digits (acc : Z) (s : gostring) : option Z :=
  match s with
  | [] => Some acc
  | r :: s' =>
      match digit r with
      | Some d => digits (10 * acc + d) s'
      | None => None
      end
  end.

Definition unsigned (s : gostring) : option Z :=
  match s with
  | [] => None
  | _ => digits 0 s
  end.

Definition Atoi (s : gostring) : option Z :=
  let v :=
    match s with
    | 43 :: s' => unsigned s'
    | 45 :: s' => Z.opp <$> unsigned s'
    | _ => unsigned s
    end in
  match v with
  | Some n => if (min_int <=? n) && (n <=? max_int) then Some n else None
  | None => None
  end.

(** ** The data model *)

(** [Cell]: a character to be drawn at a specific (X, Y) coordinate. *)
Record Cell := mkCell { X : Z; Y : Z; C : gostring }.

(** ** Panics and slices *)

Inductive panic := MakeSliceLen | IndexOutOfRange.

(** The sizes in bytes of a string and of a slice, and the largest
    allocation of the runtime, on the 64-bit platforms. *)
Definition stringSize : Z := 16.
Definition sliceSize : Z := 24.
Definition maxAlloc : Z := 2 ^ 48.

(** [make([]T, len)], that is makeslice of the runtime: the call panics with
    a length out of range when [len] is negative or when [len] elements take
    more than [maxAlloc] bytes; otherwise it gives [len] zero values.  A
    request within that limit that the system cannot serve ends the process
    with the out-of-memory error of the runtime: such runs are outside the
    model, and what is stated about an allocated grid takes the allocation
    as a hypothesis. *)
Definition make {A} (elemSize : Z) (zero : A) (len : Z) : panic + list A :=
  if (len <? 0) || (maxAlloc <? elemSize * len) then inl MakeSliceLen
  else inr (replicate (Z.to_nat len) zero).

(** [s[i]] as a value: the bounds check, then the element. *)
Definition index {A} (s : list A) (i : Z) : option A :=
  if (0 <=? i) && (i <? Z.of_nat (length s)) then s !! Z.to_nat i else None.

(** [s[i] = v]. *)
Definition assign {A} (s : list A) (i : Z) (v : A) : option (list A) :=
  if (0 <=? i) && (i <? Z.of_nat (length s)) then Some (<[Z.to_nat i := v]> s)
  else None.

(** ** renderGridFromCells *)

Abbreviation Grid := (list (list gostring)) (only parsing).

(** The first loop: the largest X and the largest Y, starting from 0. *)
Definition maxStep (m : Z * Z) (c : Cell) : Z * Z :=
  (if X c >? fst m then X c else fst m,
   if Y c >? snd m then Y c else snd m).

Definition maxXY (cells : list Cell) : Z * Z := foldl maxStep (0, 0) cells.

Definition maxX (cells : list Cell) : Z := fst (maxXY cells).
Definition maxY (cells : list Cell) : Z := snd (maxXY cells).

(** The body of the initialisation loop: one row of blanks. *)
Definition blank : gostring := str " ".

Definition initRow (width : Z) : panic + list gostring :=
  match make stringSize ([] : gostring) width with
  | inl p => inl p
  | inr row => inr ((fun _ => blank) <$> row)
  end.

Fixpoint initRows (width : Z) (rows : Grid) : panic + Grid :=
  match rows with
  | [] => inr []
  | _ :: rest =>
      match initRow width with
      | inl p => inl p
      | inr row =>
          match initRows width rest with
          | inl p => inl p
          | inr rest' => inr (row :: rest')
          end
      end
  end.

Definition initGrid (mx my : Z) : panic + Grid :=
  match make sliceSize ([] : list gostring) (add_int my 1) with
  | inl p => inl p
  | inr rows => initRows (add_int mx 1) rows
  end.

(** [grid[c.Y][c.X] = c.C] *)
Definition place (grid : Grid) (c : Cell) : option Grid :=
  match index grid (Y c) with
  | None => None
  | Some row =>
      match assign row (X c) (C c) with
      | None => None
      | Some row' => assign grid (Y c) row'
      end
  end.

Fixpoint placeAll (grid : Grid) (cells : list Cell) : option Grid :=
  match cells with
  | [] => Some grid
  | c :: rest =>
      match place grid c with
      | None => None
      | Some grid' => placeAll grid' rest
      end
  end.

(** The values of [i] in [for i := m; i >= 0; i--]. *)
Definition downFrom (m : Z) : list Z :=
  (fun k => m - Z.of_nat k) <$> seq 0 (Z.to_nat (m + 1)).

(** One line of the output: the row joined and right-trimmed. *)
Definition renderRow (row : list gostring) : gostring :=
  TrimRight (Join row []) blank.

(** What a run of the renderer leaves behind: the lines printed, and the
    panic that stopped it, if any. *)
Definition Rendered : Type := list gostring * option panic.

Fixpoint printRows (grid : Grid) (idxs : list Z) (out : list gostring) : Rendered :=
  match idxs with
  | [] => (out, None)
  | i :: rest =>
      match index grid i with
      | None => (out, Some IndexOutOfRange)
      | Some row => printRows grid rest (out ++ [renderRow row])
      end
  end.

Definition renderGridFromCells (cells : list Cell) : Rendered :=
  let '(mx, my) := maxXY cells in
  match initGrid mx my with
  | inl p => ([], Some p)
  | inr grid =>
      match placeAll grid cells with
      | None => ([], Some IndexOutOfRange)
      | Some grid' => printRows grid' (downFrom my) []
      end
  end.

(** ** The parsed document (html.Node) and the goquery selections *)

#[warnings="-register-all"]
Inductive Node :=
| TextNode (data : gostring)
| CommentNode (data : gostring)
| ElementNode (tag : gostring) (children : list Node).

(** The document node and its children. *)
Record Document := mkDocument { docChildren : list Node }.

(** A selection is the list of its nodes, in document order. *)
Abbreviation Selection := (list Node) (only parsing).

Definition children (n : Node) : list Node :=
  match n with
  | ElementNode _ cs => cs
  | _ => []
  end.

(** The tag selector of cascadia, applied to a node and then to all of its
    descendants (MatchAll): the matching nodes in document order. *)
Fixpoint MatchAll (tag : gostring) (n : Node) : list Node :=
  match n with
  | ElementNode t cs =>
      (if decide (t = tag) then [n] else []) ++ concat (MatchAll tag <$> cs)
  | _ => []
  end.

(** The matches among the descendants of one node, whose children are [cs]. *)
Definition findIn (tag : gostring) (cs : list Node) : Selection :=
  concat (MatchAll tag <$> cs).

(** [Selection.Find]: the matching descendants of every node of the
    selection.  goquery removes duplicates; there are none when the selection
    holds at most one node, as all the selections searched here do. *)
Definition Find (tag : gostring) (s : Selection) : Selection :=
  concat ((fun n => findIn tag (children n)) <$> s).

(** [Document.Find]: the search starts from the document node. *)
Definition DocFind (tag : gostring) (doc : Document) : Selection :=
  findIn tag (docChildren doc).

(** [Selection.Eq] and [Selection.First]. *)
Definition Eq (i : Z) (s : Selection) : Selection :=
  let i := if i <? 0 then i + Z.of_nat (length s) else i in
  if (i >=? Z.of_nat (length s)) || (i <? 0) then []
  else take 1 (drop (Z.to_nat i) s).

Definition First (s : Selection) : Selection := Eq 0 s.

(** [Selection.Length]. *)
Definition Length (s : Selection) : Z := Z.of_nat (length s).

(** [Selection.Text]: the text nodes of the selection and of its descendants,
    concatenated. *)
Fixpoint nodeText (n : Node) : gostring :=
  match n with
  | TextNode d => d
  | CommentNode _ => []
  | ElementNode _ cs => concat (nodeText <$> cs)
  end.

Definition Text (s : Selection) : gostring := concat (nodeText <$> s).

(** [Selection.Each f]: [f i s_i] for every node of the selection, in order;
    the variables that the closure captures are threaded as the state. *)
Fixpoint EachFrom {St} (f : nat -> Selection -> St -> St)
    (i : nat) (s : Selection) (st : St) : St :=
  match s with
  | [] => st
  | n :: rest => EachFrom f (S i) rest (f i [n] st)
  end.

Definition Each {St} (f : nat -> Selection -> St -> St) (s : Selection) (st : St) : St :=
  EachFrom f 0 s st.

(** ** parseCharacterGridFromDoc *)

(** The messages of the standard logger. *)
Inductive LogMsg :=
| Usage
| FetchFailed (err : gostring)
| FetchStatus (code : Z)
| ParseFailed (err : gostring)
| SkippingInvalidRow (xStr yStr : gostring)
| NoValidTableData.

(** The format string of each message. *)
Definition format (m : LogMsg) : string :=
  match m with
  | Usage => "Usage: go run main.go <public_google_doc_url>"
  | FetchFailed _ => "Failed to fetch document: %v"
  | FetchStatus _ => "Failed to fetch document: HTTP %d"
  | ParseFailed _ => "Failed to parse document HTML: %v"
  | SkippingInvalidRow _ _ => "Skipping invalid row: %v %v\n"
  | NoValidTableData => "No valid table data found."
  end.

(** What the closure passed to [Each] captures ([cells]) and what it writes
    to the logger. *)
Record Extract := mkExtract { cells : list Cell; logged : list LogMsg }.

(** The body of the closure, for the row [s] of index [i]. *)
Definition rowFunc (i : nat) (s : Selection) (st : Extract) : Extract :=
  if (i =? 0)%nat then st
  else
    let tds := Find (str "td") s in
    if Length tds <? 3 then st
    else
      let xStr := TrimSpace (Text (Eq 0 tds)) in
      let char := TrimSpace (Text (Eq 1 tds)) in
      let yStr := TrimSpace (Text (Eq 2 tds)) in
      match Atoi xStr, Atoi yStr with
      | Some x, Some y =>
          mkExtract (cells st ++ [mkCell x y char]) (logged st)
      | _, _ =>
          mkExtract (cells st) (logged st ++ [SkippingInvalidRow xStr yStr])
      end.

(** The rows that the extractor visits. *)
Definition tableRows (doc : Document) : Selection :=
  Find (str "tr") (First (DocFind (str "table") doc)).

Definition extract (doc : Document) : Extract :=
  Each rowFunc (tableRows doc) (mkExtract [] []).

Definition parseCharacterGridFromDoc (doc : Document) : list Cell :=
  cells (extract doc).

(** ** main *)

(** What the program writes to standard output: the two debugging prints of
    [main], and the lines of the grid. *)
Inductive OutLine :=
| PrintDocument (doc : Document)
| PrintCells (cs : list Cell)
| GridLine (line : gostring).

(** How the process ends: [main] returns, [log.Fatal] calls [os.Exit(1)], or
    a panic reaches the top of the goroutine. *)
Inductive Exit := Returned | Fatal | Panicked (p : panic).

Definition exitCode (e : Exit) : Z :=
  match e with
  | Returned => 0
  | Fatal => 1
  | Panicked _ => 2
  end.

Record Run := mkRun { stdout : list OutLine; stderr : list LogMsg; status : Exit }.

(** [log.Fatal]: the message goes to the logger and the process exits. *)
Definition fatal (out : list OutLine) (log : list LogMsg) (m : LogMsg) : Run :=
  mkRun out (log ++ [m]) Fatal.

Definition isGridLine (o : OutLine) : bool :=
  match o with
  | GridLine _ => true
  | _ => false
  end.

Section Main.

(** The response of the server, and the two calls that leave the program:
    [http.Get] and [goquery.NewDocumentFromReader]; both return a value or
    an error. *)
Variable Body : Type.

Record Response := mkResponse { StatusCode : Z; RespBody : Body }.

Variable Get : gostring -> gostring + Response.
Variable NewDocumentFromReader : Body -> gostring + Document.

(** [main] from the parsing of the body on.  The deferred close of the body
    and the trace that a panic writes are not observed here. *)
Definition parseAndRender (body : Body) : Run :=
  match NewDocumentFromReader body with
  | inl err => fatal [] [] (ParseFailed err)
  | inr doc =>
      let out := [PrintDocument doc] in
      let ex := extract doc in
      let out := out ++ [PrintCells (cells ex)] in
      if (length (cells ex) =? 0)%nat then fatal out (logged ex) NoValidTableData
      else
        let '(lines, p) := renderGridFromCells (cells ex) in
        mkRun (out ++ (GridLine <$> lines)) (logged ex)
              (from_option Panicked Returned p)
  end.

Definition main (Args : list gostring) : Run :=
  match Args with
  | _ :: url :: _ =>
      match Get url with
      | inl err => fatal [] [] (FetchFailed err)
      | inr resp =>
          if negb (StatusCode resp =? 200)
          then fatal [] [] (FetchStatus (StatusCode resp))
          else parseAndRender (RespBody resp)
      end
  | _ => fatal [] [] Usage
  end.

End Main.

Arguments StatusCode {Body} _.
Arguments RespBody {Body} _.
Arguments mkResponse {Body} _ _.

(** * Notions used in the statements *)

(** ** Grids *)

(** The grid of [h] rows and [w] columns of blanks. *)
Definition blankGrid (h w : nat) : Grid := replicate h (replicate w blank).

(** The lengths of the rows of a grid, and the bounds check of one write. *)
Definition shape (g : Grid) : list nat := length <$> g.

Definition inb (sh : list nat) (c : Cell) : bool :=
  match index sh (Y c) with
  | Some w => (0 <=? X c) && (X c <? Z.of_nat w)
  | None => false
  end.

(** The content of [grid[y][x]], when both indices are in range. *)
Definition cellAt (g : Grid) (x y : Z) : option gostring :=
  index g y ≫= fun row => index row x.

(** The write itself, once the bounds are checked. *)
Definition poke (g : Grid) (c : Cell) : Grid :=
  match g !! Z.to_nat (Y c) with
  | Some row => <[Z.to_nat (Y c) := <[Z.to_nat (X c) := C c]> row]> g
  | None => g
  end.

(** The payload of the last record of a list at the coordinate (x, y). *)
Fixpoint lastAt (cs : list Cell) (x y : Z) : option gostring :=
  match cs with
  | [] => None
  | c :: rest =>
      match lastAt rest x y with
      | Some v => Some v
      | None => if decide (x = X c /\ y = Y c) then Some (C c) else None
      end
  end.

(** The row [grid[i]], when [i] is in range. *)
Definition rowAt (g : Grid) (i : Z) : list gostring := default [] (index g i).

(** The grid after the placement loop, when the run gets that far. *)
Definition placedGrid (cells : list Cell) : option Grid :=
  match initGrid (maxX cells) (maxY cells) with
  | inl _ => None
  | inr g0 => placeAll g0 cells
  end.

(** Coordinates are not negative, and a row that reaches the column of the
    record and a grid that reaches its row are within the largest
    allocation. *)
Definition drawable (c : Cell) : Prop :=
  (0 <= X c /\ stringSize * (X c + 1) <= maxAlloc)
  /\ (0 <= Y c /\ sliceSize * (Y c + 1) <= maxAlloc).

(** Grids whose cells hold at most one character each. *)
Definition narrow (g : Grid) : Prop :=
  Forall (Forall (fun s : gostring => (length s <= 1)%nat)) g.

(** ** The extractor, as the specification describes it *)

(** The contract of section 4.1, in the words of the specification: the cells
    of a row are its [td] elements; a row needs three of them; cell 0 is the
    integer x, cell 1 the trimmed payload, cell 2 the integer y. *)
Definition specRow (row : Node) : option Cell :=
  match Find (str "td") [row] with
  | c0 :: c1 :: c2 :: _ =>
      match Atoi (TrimSpace (nodeText c0)), Atoi (TrimSpace (nodeText c2)) with
      | Some x, Some y => Some (mkCell x y (TrimSpace (nodeText c1)))
      | _, _ => None
      end
  | _ => None
  end.

(** The first table, its rows without the first one, and the record of every
    row that has one. *)
Definition specExtract (doc : Document) : list Cell :=
  match DocFind (str "table") doc with
  | [] => []
  | table :: _ =>
      match Find (str "tr") [table] with
      | [] => []
      | header :: rows => omap specRow rows
      end
  end.

(** The two defects of a row that the extractor passes over. *)
Definition tooFewCells (row : Node) : Prop :=
  Length (Find (str "td") [row]) < 3.

Definition badCoordinate (row : Node) : Prop :=
  let tds := Find (str "td") [row] in
  Atoi (TrimSpace (Text (Eq 0 tds))) = None
  \/ Atoi (TrimSpace (Text (Eq 2 tds))) = None.

(** ** The renderer *)

(** The grid that the placement loop leaves for drawable records. *)
Definition drawn (cells : list Cell) : Grid :=
  foldl poke (blankGrid (Z.to_nat (maxY cells + 1)) (Z.to_nat (maxX cells + 1)))
        cells.

(** The first testable property of the specification: the run ends
    normally with [maxY+1] lines of at most [maxX+1] characters. *)
Definition linesWithinGrid (cells : list Cell) : Prop :=
  exists lines,
    renderGridFromCells cells = (lines, None)
    /\ Z.of_nat (length lines) = maxY cells + 1
    /\ Forall (fun line : gostring => Z.of_nat (length line) <= maxX cells + 1) lines.

(** The coordinates of a [Cell] are of type [int]. *)
Definition typed (c : Cell) : Prop := is_int (X c) /\ is_int (Y c).

(** The assumption of the renderer on its input. *)
Definition nonNegative (c : Cell) : Prop := 0 <= X c /\ 0 <= Y c.

(** The display column at which the payload of the cell [x] of a row starts
    in the joined line: the length of what is joined to its left. *)
Definition column (row : list gostring) (x : nat) : nat :=
  length (Join (take x row) []).

(** ** Example documents *)

(** An element with the given tag; a row of three cells; a table as the HTML
    parser builds it, with its [tbody]; a document with the given tables. *)
Definition el (tag : string) (cs : list Node) : Node := ElementNode (str tag) cs.

Definition exRow (x c y : string) : Node :=
  el "tr" [el "td" [TextNode (str x)]; el "td" [TextNode (str c)];
           el "td" [TextNode (str y)]].

Definition exTable (rows : list Node) : Node := el "table" [el "tbody" rows].

Definition exDoc (tables : list Node) : Document :=
  mkDocument [el "html" [el "head" []; el "body" tables]].

(** ** Messages *)

(** The message of a fetch that failed on the status of the response. *)
Definition isFetchStatus (m : LogMsg) : bool :=
  match m with
  | FetchStatus _ => true
  | _ => false
  end.

(** ** Coordinates, diagnostics and rows *)

(** The number that a decimal numeral with an optional sign denotes, which
    [strconv.Atoi] returns when it fits an [int]. *)
Definition decimal (s : gostring) : option Z :=
  match s with
  | 43 :: s' => unsigned s'
  | 45 :: s' => Z.opp <$> unsigned s'
  | _ => unsigned s
  end.

(** The coordinate of a record, and a record that lies outside the grid. *)
Definition coords (c : Cell) : Z * Z := (X c, Y c).

Definition negative (c : Cell) : Prop := X c < 0 \/ Y c < 0.

(** A row that passes the test on the number of its cells. *)
Definition hasThreeCells (row : Node) : bool :=
  negb (Length (Find (str "td") [row]) <? 3).

(** The message that the closure logs for a row, if it logs one. *)
Definition specDiag (row : Node) : option LogMsg :=
  match Find (str "td") [row] with
  | c0 :: c1 :: c2 :: _ =>
      let xStr := TrimSpace (nodeText c0) in
      let yStr := TrimSpace (nodeText c2) in
      match Atoi xStr, Atoi yStr with
      | Some _, Some _ => None
      | _, _ => Some (SkippingInvalidRow xStr yStr)
      end
  | _ => None
  end.

(** ** main.go *)

(** The [main] of main.go: the fetch and the parsing, then the debugging
    print of the document. *)
Module MainGo.
Section Main.

Variable Body : Type.
Variable Get : gostring -> gostring + Response Body.
Variable NewDocumentFromReader : Body -> gostring + Document.

Definition main (Args : list gostring) : Run :=
  match Args with
  | _ :: url :: _ =>
      match Get url with
      | inl err => fatal [] [] (FetchFailed err)
      | inr resp =>
          if negb (StatusCode resp =? 200)
          then fatal [] [] (FetchStatus (StatusCode resp))
          else
            match NewDocumentFromReader (RespBody resp) with
            | inl err => fatal [] [] (ParseFailed err)
            | inr doc => mkRun [PrintDocument doc] [] Returned
            end
      end
  | _ => fatal [] [] Usage
  end.

End Main.
End MainGo.

(** * Properties *)

Example render_HI :
  renderGridFromCells [mkCell 0 0 (str "H"); mkCell 1 0 (str "I")]
  = ([str "HI"], None).
Proof. reflexivity. Qed.

(** ** Integers and the bounding box *)

Lemma add_int_1 (a : Z) : min_int <= a < max_int -> add_int a 1 = a + 1.
Proof.
  unfold add_int, wrap, min_int, max_int, intSize. intros Ha.
  rewrite Z.mod_small; lia.
Qed.

Lemma add_int_max : add_int max_int 1 = min_int.
Proof. reflexivity. Qed.

Lemma foldl_max_ge_init (zs : list Z) (a : Z) : a <= foldl Z.max a zs.
Proof.
  revert a. induction zs as [|z zs IH]; intros a; simpl; [lia|].
  specialize (IH (Z.max a z)). lia.
Qed.

Lemma foldl_max_ge_elem (zs : list Z) (a z : Z) :
  z ∈ zs -> z <= foldl Z.max a zs.
Proof.
  revert a. induction zs as [|z' zs IH]; intros a Hin; simpl.
  - inversion Hin.
  - apply elem_of_cons in Hin as [->|Hin].
    + pose proof (foldl_max_ge_init zs (Z.max a z')). lia.
    + by apply IH.
Qed.

Lemma foldl_max_attained (zs : list Z) (a : Z) :
  foldl Z.max a zs = a \/ foldl Z.max a zs ∈ zs.
Proof.
  revert a. induction zs as [|z zs IH]; intros a; simpl; [by left|].
  destruct (IH (Z.max a z)) as [->|Hin].
  - destruct (Z.max_spec a z) as [[_ ->]|[_ ->]]; [right; left | by left].
  - right. by right.
Qed.

Lemma maxStep_max (m : Z * Z) (c : Cell) :
  maxStep m c = (Z.max (fst m) (X c), Z.max (snd m) (Y c)).
Proof.
  unfold maxStep. f_equal.
  - destruct (Z.gtb_spec (X c) (fst m)); lia.
  - destruct (Z.gtb_spec (Y c) (snd m)); lia.
Qed.

Lemma foldl_maxStep (l : list Cell) (m : Z * Z) :
  foldl maxStep m l
  = (foldl Z.max (fst m) (X <$> l), foldl Z.max (snd m) (Y <$> l)).
Proof.
  revert m. induction l as [|c l IH]; intros [a b]; simpl; [done|].
  rewrite IH, maxStep_max. done.
Qed.

Lemma maxX_eq (l : list Cell) : maxX l = foldl Z.max 0 (X <$> l).
Proof. unfold maxX, maxXY. by rewrite foldl_maxStep. Qed.

Lemma maxY_eq (l : list Cell) : maxY l = foldl Z.max 0 (Y <$> l).
Proof. unfold maxY, maxXY. by rewrite foldl_maxStep. Qed.

Lemma maxXY_pair (l : list Cell) : maxXY l = (maxX l, maxY l).
Proof. unfold maxX, maxY. by destruct (maxXY l). Qed.

Lemma maxX_nonneg (l : list Cell) : 0 <= maxX l.
Proof. rewrite maxX_eq. apply foldl_max_ge_init. Qed.

Lemma maxY_nonneg (l : list Cell) : 0 <= maxY l.
Proof. rewrite maxY_eq. apply foldl_max_ge_init. Qed.

Lemma maxX_ge (l : list Cell) (c : Cell) : c ∈ l -> X c <= maxX l.
Proof.
  intros Hin. rewrite maxX_eq. apply foldl_max_ge_elem.
  apply list_elem_of_fmap. eauto.
Qed.

Lemma maxY_ge (l : list Cell) (c : Cell) : c ∈ l -> Y c <= maxY l.
Proof.
  intros Hin. rewrite maxY_eq. apply foldl_max_ge_elem.
  apply list_elem_of_fmap. eauto.
Qed.

Lemma maxX_attained (l : list Cell) : maxX l = 0 \/ exists c, c ∈ l /\ X c = maxX l.
Proof.
  rewrite maxX_eq. destruct (foldl_max_attained (X <$> l) 0) as [H|H]; [by left|].
  right. apply list_elem_of_fmap in H as (c & Hc & Hin). eauto.
Qed.

Lemma maxY_attained (l : list Cell) : maxY l = 0 \/ exists c, c ∈ l /\ Y c = maxY l.
Proof.
  rewrite maxY_eq. destruct (foldl_max_attained (Y <$> l) 0) as [H|H]; [by left|].
  right. apply list_elem_of_fmap in H as (c & Hc & Hin). eauto.
Qed.

(** ** Slices *)

Lemma index_spec {A} (s : list A) (i : Z) :
  index s i = if decide (0 <= i) then s !! Z.to_nat i else None.
Proof.
  unfold index. destruct (decide (0 <= i)) as [Hi|Hi].
  - destruct (Z.ltb_spec i (Z.of_nat (length s))) as [Hlt|Hge].
    + replace (0 <=? i) with true by (symmetry; by apply Z.leb_le). done.
    + rewrite andb_false_r. symmetry. apply lookup_ge_None. lia.
  - replace (0 <=? i) with false by (symmetry; apply Z.leb_gt; lia). done.
Qed.

Lemma index_Some {A} (s : list A) (i : Z) (a : A) :
  index s i = Some a <-> 0 <= i /\ s !! Z.to_nat i = Some a.
Proof. rewrite index_spec. destruct (decide (0 <= i)); intuition congruence. Qed.

Lemma index_is_Some {A} (s : list A) (i : Z) :
  is_Some (index s i) <-> 0 <= i < Z.of_nat (length s).
Proof.
  rewrite index_spec. destruct (decide (0 <= i)) as [Hi|Hi].
  - rewrite lookup_lt_is_Some. lia.
  - split; [intros [? ?]; done | lia].
Qed.

Lemma index_fmap {A B} (f : A -> B) (s : list A) (i : Z) :
  index (f <$> s) i = f <$> index s i.
Proof.
  rewrite !index_spec. destruct (decide (0 <= i)); [|done].
  apply list_lookup_fmap.
Qed.

Lemma assign_spec {A} (s : list A) (i : Z) (v : A) :
  assign s i v
  = if bool_decide (is_Some (index s i)) then Some (<[Z.to_nat i := v]> s) else None.
Proof.
  unfold assign.
  destruct (bool_decide_reflect (is_Some (index s i))) as [H|H];
    rewrite index_is_Some in H.
  - replace (0 <=? i) with true by (symmetry; apply Z.leb_le; lia).
    replace (i <? Z.of_nat (length s)) with true by (symmetry; apply Z.ltb_lt; lia).
    done.
  - destruct (Z.leb_spec 0 i); [|done].
    destruct (Z.ltb_spec i (Z.of_nat (length s))); [lia|done].
Qed.

(** ** The allocation of the grid *)

Lemma maxAlloc_int : maxAlloc < max_int.
Proof. done. Qed.

Lemma make_spec {A} (elemSize : Z) (zero : A) (len : Z) :
  make elemSize zero len
  = if decide (0 <= len /\ elemSize * len <= maxAlloc)
    then inr (replicate (Z.to_nat len) zero)
    else inl MakeSliceLen.
Proof.
  unfold make. destruct (Z.ltb_spec len 0), (Z.ltb_spec maxAlloc (elemSize * len));
    simpl; (rewrite decide_True by lia) || (rewrite decide_False by lia); done.
Qed.

Lemma initRow_ok (w : Z) :
  0 <= w -> stringSize * w <= maxAlloc ->
  initRow w = inr (replicate (Z.to_nat w) blank).
Proof.
  intros Hw Hsize. unfold initRow. rewrite make_spec, decide_True by done.
  by rewrite fmap_replicate.
Qed.

Lemma initRow_fail (w : Z) :
  w < 0 \/ maxAlloc < stringSize * w -> initRow w = inl MakeSliceLen.
Proof.
  intros Hw. unfold initRow. by rewrite make_spec, decide_False by lia.
Qed.

Lemma initRows_ok (w : Z) (rows : Grid) :
  0 <= w -> stringSize * w <= maxAlloc ->
  initRows w rows = inr (blankGrid (length rows) (Z.to_nat w)).
Proof.
  intros Hw Hsize. induction rows as [|r rows IH]; simpl; [done|].
  by rewrite initRow_ok, IH.
Qed.

Lemma initRows_fail (w : Z) (rows : Grid) :
  w < 0 \/ maxAlloc < stringSize * w -> rows <> [] ->
  initRows w rows = inl MakeSliceLen.
Proof.
  intros Hw Hne. destruct rows as [|r rows]; [done|]. simpl.
  by rewrite initRow_fail.
Qed.

Lemma initGrid_ok (mx my : Z) :
  0 <= mx -> stringSize * (mx + 1) <= maxAlloc ->
  0 <= my -> sliceSize * (my + 1) <= maxAlloc ->
  initGrid mx my = inr (blankGrid (Z.to_nat (my + 1)) (Z.to_nat (mx + 1))).
Proof.
  intros Hx Hxs Hy Hys. pose proof maxAlloc_int as Hmax. unfold initGrid.
  rewrite !add_int_1
    by (unfold stringSize, sliceSize, min_int, max_int, maxAlloc, intSize in *; lia).
  rewrite make_spec, decide_True by lia.
  rewrite initRows_ok by lia. by rewrite length_replicate.
Qed.

(** The allocation fails only with a length out of range. *)
Lemma initGrid_inl (mx my : Z) (p : panic) :
  initGrid mx my = inl p -> p = MakeSliceLen.
Proof.
  unfold initGrid. rewrite make_spec. case_decide; [|congruence].
  generalize (replicate (Z.to_nat (add_int my 1)) ([] : list gostring)).
  intros rows. induction rows as [|r rows IH]; simpl; [done|].
  unfold initRow. rewrite make_spec. case_decide; [|congruence].
  destruct (initRows (add_int mx 1) rows); [|done].
  intros [= <-]. by apply IH.
Qed.

Lemma add_int_cases (a : Z) :
  0 <= a <= max_int ->
  (a < max_int /\ add_int a 1 = a + 1) \/ (a = max_int /\ add_int a 1 < 0).
Proof.
  intros Ha. destruct (decide (a = max_int)) as [->|Hne].
  - right. by rewrite add_int_max.
  - left. split; [lia|]. apply add_int_1.
    unfold min_int, max_int, intSize in *. lia.
Qed.

(** When it succeeds, both dimensions are within the largest allocation. *)
Lemma initGrid_inr (mx my : Z) (g : Grid) :
  0 <= mx <= max_int -> 0 <= my <= max_int ->
  initGrid mx my = inr g ->
  stringSize * (mx + 1) <= maxAlloc /\ sliceSize * (my + 1) <= maxAlloc.
Proof.
  intros Hx Hy Hg. unfold initGrid in Hg. rewrite make_spec in Hg.
  case_decide as Hlen; [|done].
  assert (add_int my 1 = my + 1) as Hmy.
  { destruct (add_int_cases my Hy) as [[_ ?]|[_ ?]]; [done|lia]. }
  rewrite Hmy in Hg, Hlen. split; [|lia].
  destruct (decide (0 <= add_int mx 1 /\ stringSize * add_int mx 1 <= maxAlloc))
    as [Hok|Hbad].
  - destruct (add_int_cases mx Hx) as [[_ Hmx]|[_ ?]]; [|lia].
    rewrite Hmx in Hok. lia.
  - rewrite initRows_fail in Hg; [done|lia|].
    intros Hnil. apply (f_equal length) in Hnil.
    rewrite length_replicate in Hnil. simpl in Hnil. lia.
Qed.

(** ** The placement loop *)

Lemma place_poke (g : Grid) (c : Cell) :
  place g c = if inb (shape g) c then Some (poke g c) else None.
Proof.
  unfold place, inb, poke, shape. rewrite index_fmap.
  destruct (index g (Y c)) as [row|] eqn:Hrow; simpl; [|done].
  apply index_Some in Hrow as [HY Hrow]. rewrite Hrow.
  unfold assign at 1.
  destruct ((0 <=? X c) && (X c <? Z.of_nat (length row))); [|done].
  rewrite assign_spec, bool_decide_eq_true_2; [done|].
  apply index_is_Some. apply lookup_lt_Some in Hrow. lia.
Qed.

Lemma shape_poke (g : Grid) (c : Cell) : shape (poke g c) = shape g.
Proof.
  unfold poke, shape. destruct (g !! Z.to_nat (Y c)) as [row|] eqn:Hrow; [|done].
  rewrite list_fmap_insert, length_insert.
  apply list_insert_id. by rewrite list_lookup_fmap, Hrow.
Qed.

Lemma shape_foldl_poke (cs : list Cell) (g : Grid) :
  shape (foldl poke g cs) = shape g.
Proof.
  revert g. induction cs as [|c cs IH]; intros g; simpl; [done|].
  by rewrite IH, shape_poke.
Qed.

Lemma placeAll_poke (cs : list Cell) (g : Grid) :
  placeAll g cs
  = if forallb (inb (shape g)) cs then Some (foldl poke g cs) else None.
Proof.
  revert g. induction cs as [|c cs IH]; intros g; simpl; [done|].
  rewrite place_poke. destruct (inb (shape g) c); simpl; [|done].
  by rewrite IH, shape_poke.
Qed.

Lemma cellAt_poke (g : Grid) (c : Cell) (x y : Z) :
  inb (shape g) c = true ->
  cellAt (poke g c) x y
  = if decide (x = X c /\ y = Y c) then Some (C c) else cellAt g x y.
Proof.
  unfold inb, poke, cellAt, shape. rewrite index_fmap. intros Hin.
  destruct (index g (Y c)) as [row|] eqn:Hrow; simpl in Hin; [|done].
  apply andb_prop in Hin as [HX1 HX2].
  apply Z.leb_le in HX1. apply Z.ltb_lt in HX2.
  apply index_Some in Hrow as [HY Hrow]. rewrite Hrow.
  pose proof (lookup_lt_Some _ _ _ Hrow) as Hlen.
  rewrite !(index_spec _ y).
  destruct (decide (0 <= y)) as [Hy|Hy]; simpl;
    [|by rewrite decide_False by lia].
  destruct (decide (Z.to_nat y = Z.to_nat (Y c))) as [Heq|Hne].
  - assert (y = Y c) as -> by lia.
    rewrite list_lookup_insert_eq by done. rewrite Hrow. simpl.
    rewrite !(index_spec _ x).
    destruct (decide (0 <= x)) as [Hx|Hx]; [|by rewrite decide_False by lia].
    destruct (decide (Z.to_nat x = Z.to_nat (X c))) as [Heq'|Hne'].
    + assert (x = X c) as -> by lia.
      rewrite list_lookup_insert_eq by lia. by rewrite decide_True.
    + rewrite list_lookup_insert_ne by done. rewrite decide_False by lia. done.
  - rewrite list_lookup_insert_ne by done. rewrite decide_False by lia. done.
Qed.

(** Two grids of the same shape with the same cells are the same grid. *)
Lemma grid_ext (g g' : Grid) :
  shape g = shape g' ->
  (forall x y, cellAt g x y = cellAt g' x y) ->
  g = g'.
Proof.
  intros Hsh Hat. apply list_eq. intros i.
  assert (length <$> g !! i = length <$> g' !! i) as Hlen.
  { unfold shape in Hsh. by rewrite <- !list_lookup_fmap, Hsh. }
  destruct (g !! i) as [r|] eqn:Hr, (g' !! i) as [r'|] eqn:Hr'; try done.
  f_equal. simpl in Hlen. injection Hlen as Hlen.
  apply list_eq. intros j.
  specialize (Hat (Z.of_nat j) (Z.of_nat i)). unfold cellAt in Hat.
  rewrite !(index_spec _ (Z.of_nat i)) in Hat.
  rewrite !decide_True in Hat by lia. rewrite Nat2Z.id, Hr, Hr' in Hat.
  simpl in Hat. rewrite !index_spec, !decide_True in Hat by lia.
  by rewrite Nat2Z.id in Hat.
Qed.

Lemma lastAt_app (l1 l2 : list Cell) (x y : Z) :
  lastAt (l1 ++ l2) x y
  = match lastAt l2 x y with Some v => Some v | None => lastAt l1 x y end.
Proof.
  induction l1 as [|c l1 IH]; simpl.
  - by destruct (lastAt l2 x y).
  - rewrite IH. by destruct (lastAt l2 x y).
Qed.

Lemma lastAt_None (cs : list Cell) (x y : Z) :
  lastAt cs x y = None <-> Forall (fun c => ~ (x = X c /\ y = Y c)) cs.
Proof.
  induction cs as [|c cs IH]; simpl.
  - split; [constructor|done].
  - rewrite Forall_cons, <- IH.
    destruct (lastAt cs x y); [intuition congruence|].
    destruct (decide (x = X c /\ y = Y c)); intuition congruence.
Qed.

Lemma cellAt_foldl_poke (cs : list Cell) (g : Grid) (x y : Z) :
  forallb (inb (shape g)) cs = true ->
  cellAt (foldl poke g cs) x y
  = match lastAt cs x y with Some v => Some v | None => cellAt g x y end.
Proof.
  revert g. induction cs as [|c cs IH]; intros g Hin; simpl; [done|].
  simpl in Hin. apply andb_prop in Hin as [Hc Hcs].
  rewrite IH by (by rewrite shape_poke).
  destruct (lastAt cs x y); [done|]. rewrite cellAt_poke by done.
  by destruct (decide (x = X c /\ y = Y c)).
Qed.

(** ** The printing loop *)

Lemma downFrom_length (m : Z) : length (downFrom m) = Z.to_nat (m + 1).
Proof. unfold downFrom. by rewrite length_fmap, length_seq. Qed.

Lemma downFrom_lookup (m : Z) (k : nat) :
  (k < Z.to_nat (m + 1))%nat -> downFrom m !! k = Some (m - Z.of_nat k).
Proof.
  intros Hk. unfold downFrom.
  rewrite list_lookup_fmap, lookup_seq_lt by done. done.
Qed.

Lemma downFrom_bounds (m i : Z) : i ∈ downFrom m -> 0 <= i <= m.
Proof.
  unfold downFrom. intros Hin.
  apply list_elem_of_fmap in Hin as (k & -> & Hk).
  apply elem_of_seq in Hk. lia.
Qed.

Lemma printRows_ok (g : Grid) (idxs : list Z) (out : list gostring) :
  Forall (fun i => 0 <= i < Z.of_nat (length g)) idxs ->
  printRows g idxs out
  = (out ++ ((fun i => renderRow (rowAt g i)) <$> idxs), None).
Proof.
  intros Hall. revert out.
  induction Hall as [|i idxs Hi _ IH]; intros out; simpl.
  - by rewrite app_nil_r.
  - unfold rowAt at 1.
    destruct (proj2 (index_is_Some g i) Hi) as [row Hrow]. rewrite Hrow. simpl.
    by rewrite IH, <- app_assoc.
Qed.

Lemma render_placed (cells : list Cell) (g : Grid) :
  placedGrid cells = Some g ->
  renderGridFromCells cells = printRows g (downFrom (maxY cells)) [].
Proof.
  unfold placedGrid, renderGridFromCells. rewrite maxXY_pair.
  destruct (initGrid (maxX cells) (maxY cells)) as [p|g0]; [done|].
  by intros ->.
Qed.

(** ** Records that the renderer can draw *)

Lemma drawable_maxX (cells : list Cell) :
  Forall drawable cells ->
  0 <= maxX cells /\ stringSize * (maxX cells + 1) <= maxAlloc.
Proof.
  intros Hall. split; [apply maxX_nonneg|].
  destruct (maxX_attained cells) as [->|(c & Hin & <-)]; [done|].
  rewrite Forall_forall in Hall. apply (Hall c Hin).
Qed.

Lemma drawable_maxY (cells : list Cell) :
  Forall drawable cells ->
  0 <= maxY cells /\ sliceSize * (maxY cells + 1) <= maxAlloc.
Proof.
  intros Hall. split; [apply maxY_nonneg|].
  destruct (maxY_attained cells) as [->|(c & Hin & <-)]; [done|].
  rewrite Forall_forall in Hall. apply (Hall c Hin).
Qed.

Lemma drawable_nonneg (cells : list Cell) :
  Forall drawable cells -> Forall (fun c => 0 <= X c /\ 0 <= Y c) cells.
Proof.
  intros Hall. eapply Forall_impl; [exact Hall|].
  unfold drawable. intros c. tauto.
Qed.

Lemma initGrid_drawable (cells : list Cell) :
  Forall drawable cells ->
  initGrid (maxX cells) (maxY cells)
  = inr (blankGrid (Z.to_nat (maxY cells + 1)) (Z.to_nat (maxX cells + 1))).
Proof.
  intros Hall. destruct (drawable_maxX _ Hall), (drawable_maxY _ Hall).
  by apply initGrid_ok.
Qed.

Lemma shape_blankGrid (h w : nat) : shape (blankGrid h w) = replicate h w.
Proof.
  unfold shape, blankGrid. by rewrite fmap_replicate, length_replicate.
Qed.

Lemma inb_replicate (h w : nat) (c : Cell) :
  0 <= Y c < Z.of_nat h -> 0 <= X c < Z.of_nat w ->
  inb (replicate h w) c = true.
Proof.
  intros HY HX. unfold inb. rewrite index_spec, decide_True by lia.
  rewrite lookup_replicate_2 by lia.
  apply andb_true_intro. split; [apply Z.leb_le | apply Z.ltb_lt]; lia.
Qed.

Lemma inb_blank_all (cells : list Cell) :
  Forall (fun c => 0 <= X c /\ 0 <= Y c) cells ->
  forallb (inb (replicate (Z.to_nat (maxY cells + 1)) (Z.to_nat (maxX cells + 1))))
          cells = true.
Proof.
  intros Hall. apply forallb_forall. intros c Hin%list_elem_of_In.
  rewrite Forall_forall in Hall. destruct (Hall c Hin) as [HX HY].
  pose proof (maxX_ge _ _ Hin). pose proof (maxY_ge _ _ Hin).
  apply inb_replicate; lia.
Qed.

(** For drawable records the three loops run to their end. *)
Lemma placedGrid_drawable (cells : list Cell) :
  Forall drawable cells ->
  placedGrid cells
  = Some (foldl poke (blankGrid (Z.to_nat (maxY cells + 1))
                                (Z.to_nat (maxX cells + 1))) cells).
Proof.
  intros Hall. unfold placedGrid. rewrite initGrid_drawable by done.
  rewrite placeAll_poke, shape_blankGrid, inb_blank_all; [done|].
  by apply drawable_nonneg.
Qed.

Lemma placedGrid_shape (cells : list Cell) :
  shape (foldl poke (blankGrid (Z.to_nat (maxY cells + 1))
                               (Z.to_nat (maxX cells + 1))) cells)
  = replicate (Z.to_nat (maxY cells + 1)) (Z.to_nat (maxX cells + 1)).
Proof. by rewrite shape_foldl_poke, shape_blankGrid. Qed.

Lemma shape_length (g : Grid) : length (shape g) = length g.
Proof. unfold shape. by rewrite length_fmap. Qed.

Lemma shape_row (g : Grid) (h w : nat) (i : Z) :
  shape g = replicate h w -> 0 <= i < Z.of_nat h ->
  exists row, index g i = Some row /\ length row = w.
Proof.
  intros Hsh Hi.
  assert (length g = h) as Hlen
    by (by rewrite <- shape_length, Hsh, length_replicate).
  destruct (proj2 (index_is_Some g i)) as [row Hrow]; [lia|].
  exists row. split; [done|].
  assert (index (shape g) i = Some (length row)) as Hs
    by (unfold shape; by rewrite index_fmap, Hrow).
  rewrite Hsh in Hs. apply index_Some in Hs as [_ Hs].
  by apply lookup_replicate in Hs as [-> _].
Qed.

(** The output of a run on drawable records. *)
Lemma render_drawable (cells : list Cell) :
  Forall drawable cells ->
  exists g,
    placedGrid cells = Some g
    /\ shape g = replicate (Z.to_nat (maxY cells + 1)) (Z.to_nat (maxX cells + 1))
    /\ (forall x y, cellAt g x y
                    = match lastAt cells x y with
                      | Some v => Some v
                      | None => cellAt (blankGrid (Z.to_nat (maxY cells + 1))
                                                  (Z.to_nat (maxX cells + 1))) x y
                      end)
    /\ renderGridFromCells cells
       = ((fun i => renderRow (rowAt g i)) <$> downFrom (maxY cells), None).
Proof.
  intros Hall. eexists. split; [by apply placedGrid_drawable|].
  split; [apply placedGrid_shape|]. split.
  - intros x y. apply cellAt_foldl_poke.
    rewrite shape_blankGrid. apply inb_blank_all. by apply drawable_nonneg.
  - rewrite (render_placed cells _ (placedGrid_drawable cells Hall)).
    rewrite printRows_ok; [done|].
    apply Forall_forall. intros i Hi%downFrom_bounds.
    rewrite <- shape_length, placedGrid_shape, length_replicate.
    pose proof (maxY_nonneg cells). lia.
Qed.

(** ** Lengths of the printed lines *)

Lemma Join_nil_sep (elems : list gostring) : Join elems [] = concat elems.
Proof.
  induction elems as [|e [|e' rest] IH]; [done| |].
  - simpl. by rewrite app_nil_r.
  - change (Join (e :: e' :: rest) []) with (e ++ [] ++ Join (e' :: rest) []).
    by rewrite IH.
Qed.

Lemma length_TrimLeftFunc (f : rune -> bool) (s : gostring) :
  (length (TrimLeftFunc f s) <= length s)%nat.
Proof. induction s as [|r s IH]; simpl; [done|]. destruct (f r); simpl; lia. Qed.

Lemma length_TrimRightFunc (f : rune -> bool) (s : gostring) :
  (length (TrimRightFunc f s) <= length s)%nat.
Proof.
  unfold TrimRightFunc. rewrite length_reverse.
  etrans; [apply length_TrimLeftFunc|]. by rewrite length_reverse.
Qed.

Lemma length_concat_sum (row : list gostring) :
  length (concat row) = sum_list (length <$> row).
Proof. induction row as [|s row IH]; simpl; [done|]. by rewrite length_app, IH. Qed.

Lemma sum_list_le_length (ns : list nat) :
  Forall (fun n => (n <= 1)%nat) ns -> (sum_list ns <= length ns)%nat.
Proof. induction 1; simpl; lia. Qed.

Lemma length_renderRow (row : list gostring) :
  Forall (fun s => (length s <= 1)%nat) row ->
  (length (renderRow row) <= length row)%nat.
Proof.
  intros Hrow. unfold renderRow, TrimRight.
  etrans; [apply length_TrimRightFunc|].
  rewrite Join_nil_sep, length_concat_sum.
  etrans; [apply sum_list_le_length|by rewrite length_fmap].
  by apply Forall_fmap.
Qed.

Lemma narrow_blankGrid (h w : nat) : narrow (blankGrid h w).
Proof.
  unfold narrow, blankGrid. apply Forall_replicate, Forall_replicate.
  simpl. lia.
Qed.

Lemma narrow_poke (g : Grid) (c : Cell) :
  narrow g -> (length (C c) <= 1)%nat -> narrow (poke g c).
Proof.
  unfold narrow, poke. intros Hg Hc.
  destruct (g !! Z.to_nat (Y c)) as [row|] eqn:Hrow; [|done].
  apply Forall_insert; [done|]. apply Forall_insert; [|done].
  rewrite Forall_forall in Hg. apply Hg. by eapply list_elem_of_lookup_2.
Qed.

Lemma narrow_foldl_poke (cells : list Cell) (g : Grid) :
  narrow g -> Forall (fun c => (length (C c) <= 1)%nat) cells ->
  narrow (foldl poke g cells).
Proof.
  intros Hg Hall. revert g Hg.
  induction Hall as [|c cells Hc _ IH]; intros g Hg; simpl; [done|].
  by apply IH, narrow_poke.
Qed.

(** ** The extractor *)

Lemma Eq_lookup (s : list Node) (k : nat) (n : Node) :
  s !! k = Some n -> Eq (Z.of_nat k) s = [n].
Proof.
  intros Hk. pose proof (lookup_lt_Some _ _ _ Hk) as Hlt. unfold Eq.
  assert ((Z.of_nat k <? 0) = false) as Hneg by (apply Z.ltb_ge; lia).
  rewrite Hneg. cbv beta iota zeta. rewrite Hneg, orb_false_r.
  destruct (Z.geb_spec (Z.of_nat k) (Z.of_nat (length s))); [lia|].
  rewrite Nat2Z.id, (drop_S _ _ _ Hk). done.
Qed.

Lemma Text_singleton (n : Node) : Text [n] = nodeText n.
Proof. unfold Text. simpl. apply app_nil_r. Qed.

Lemma Length_three (c0 c1 c2 : Node) (rest : list Node) :
  (Length (c0 :: c1 :: c2 :: rest) <? 3) = false.
Proof. apply Z.ltb_ge. unfold Length. simpl length. lia. Qed.

Lemma rowFunc_cells (i : nat) (n : Node) (st : Extract) :
  i <> 0%nat -> cells (rowFunc i [n] st) = cells st ++ option_list (specRow n).
Proof.
  intros Hi. unfold rowFunc, specRow.
  destruct i as [|i]; [done|]. simpl Nat.eqb. cbv iota.
  destruct (Find (str "td") [n]) as [|c0 [|c1 [|c2 rest]]] eqn:Htds;
    try (simpl; by rewrite app_nil_r).
  rewrite Length_three.
  rewrite (Eq_lookup _ 0 c0), (Eq_lookup _ 1 c1), (Eq_lookup _ 2 c2) by done.
  rewrite !Text_singleton.
  destruct (Atoi (TrimSpace (nodeText c0))) as [x|],
           (Atoi (TrimSpace (nodeText c2))) as [y|];
    simpl; by rewrite ?app_nil_r.
Qed.

Lemma EachFrom_rowFunc (rows : list Node) (i : nat) (st : Extract) :
  i <> 0%nat ->
  cells (EachFrom rowFunc i rows st) = cells st ++ omap specRow rows.
Proof.
  revert i st. induction rows as [|r rows IH]; intros i st Hi; simpl.
  - by rewrite app_nil_r.
  - rewrite IH, rowFunc_cells by done.
    rewrite <- app_assoc. f_equal. by destruct (specRow r).
Qed.

Lemma Each_rowFunc (rows : list Node) :
  cells (Each rowFunc rows (mkExtract [] []))
  = match rows with [] => [] | _ :: rest => omap specRow rest end.
Proof.
  unfold Each. destruct rows as [|header rest]; [done|]. simpl.
  by rewrite EachFrom_rowFunc.
Qed.

Lemma Find_singleton (tag : gostring) (n : Node) :
  Find tag [n] = findIn tag (children n).
Proof. unfold Find. simpl. apply app_nil_r. Qed.

Lemma tableRows_spec (doc : Document) :
  tableRows doc
  = match DocFind (str "table") doc with
    | [] => []
    | table :: _ => Find (str "tr") [table]
    end.
Proof.
  unfold tableRows, First.
  destruct (DocFind (str "table") doc) as [|t rest] eqn:Ht; [done|].
  by rewrite (Eq_lookup _ 0 t).
Qed.

Lemma parse_spec (doc : Document) :
  parseCharacterGridFromDoc doc = specExtract doc.
Proof.
  unfold parseCharacterGridFromDoc, extract, specExtract.
  rewrite Each_rowFunc, tableRows_spec.
  by destruct (DocFind (str "table") doc).
Qed.

Lemma parse_rows (doc : Document) (header : Node) (rows : list Node) :
  tableRows doc = header :: rows ->
  parseCharacterGridFromDoc doc = omap specRow rows.
Proof.
  intros Hrows. unfold parseCharacterGridFromDoc, extract.
  by rewrite Each_rowFunc, Hrows.
Qed.

Lemma specRow_skipped (row : Node) :
  tooFewCells row \/ badCoordinate row -> specRow row = None.
Proof.
  unfold tooFewCells, badCoordinate, specRow.
  destruct (Find (str "td") [row]) as [|c0 [|c1 [|c2 rest]]]; try done.
  intros [Hfew|Hbad].
  - unfold Length in Hfew. simpl length in Hfew. lia.
  - rewrite (Eq_lookup _ 0 c0), (Eq_lookup _ 2 c2), !Text_singleton in Hbad by done.
    destruct Hbad as [-> | ->]; [done|].
    by destruct (Atoi (TrimSpace (nodeText c0))).
Qed.

Lemma render_drawn (cells : list Cell) :
  Forall drawable cells ->
  placedGrid cells = Some (drawn cells)
  /\ renderGridFromCells cells
     = ((fun i => renderRow (rowAt (drawn cells) i)) <$> downFrom (maxY cells), None).
Proof.
  intros Hall. destruct (render_drawable cells Hall) as (g & Hg & _ & _ & Hr).
  rewrite placedGrid_drawable in Hg by done. injection Hg as <-.
  split; [by apply placedGrid_drawable | exact Hr].
Qed.

Lemma drawn_row (cells : list Cell) (i : Z) :
  0 <= i <= maxY cells ->
  exists row, index (drawn cells) i = Some row
              /\ rowAt (drawn cells) i = row
              /\ Z.of_nat (length row) = maxX cells + 1.
Proof.
  intros Hi. pose proof (maxX_nonneg cells).
  destruct (shape_row (drawn cells) _ _ i (placedGrid_shape cells))
    as (row & Hrow & Hlen); [lia|].
  exists row. unfold rowAt. rewrite Hrow. split_and!; [done|done|lia].
Qed.

Lemma lastAt_elem (cells : list Cell) (c : Cell) :
  c ∈ cells -> is_Some (lastAt cells (X c) (Y c)).
Proof.
  intros Hin. destruct (lastAt cells (X c) (Y c)) eqn:Hlast; [by eexists|].
  apply lastAt_None in Hlast. rewrite Forall_forall in Hlast.
  by destruct (Hlast c Hin).
Qed.

(** ** Records on an allocated grid *)

Lemma typed_max (cells : list Cell) :
  Forall typed cells -> maxX cells <= max_int /\ maxY cells <= max_int.
Proof.
  intros Hall. rewrite Forall_forall in Hall. split.
  - destruct (maxX_attained cells) as [->|(c & Hin & <-)]; [done|].
    apply (Hall c Hin).
  - destruct (maxY_attained cells) as [->|(c & Hin & <-)]; [done|].
    apply (Hall c Hin).
Qed.

Lemma allocated_drawable (cells : list Cell) (g0 : Grid) :
  Forall typed cells -> Forall nonNegative cells ->
  initGrid (maxX cells) (maxY cells) = inr g0 ->
  Forall drawable cells.
Proof.
  intros Hty Hnn Hg0. destruct (typed_max cells Hty) as [HX HY].
  pose proof (maxX_nonneg cells). pose proof (maxY_nonneg cells).
  destruct (initGrid_inr (maxX cells) (maxY cells) g0) as [HX' HY'];
    [lia|lia|done|].
  apply Forall_forall. intros c Hin.
  rewrite Forall_forall in Hnn. destruct (Hnn c Hin) as [? ?].
  pose proof (maxX_ge _ _ Hin). pose proof (maxY_ge _ _ Hin).
  unfold drawable, stringSize, sliceSize in *. lia.
Qed.

Lemma cellAt_rowAt (g : Grid) (x y : Z) : cellAt g x y = index (rowAt g y) x.
Proof.
  unfold cellAt, rowAt. destruct (index g y) as [row|]; simpl; [done|].
  rewrite index_spec. by case_decide.
Qed.

Lemma lastAt_last (l1 l2 : list Cell) (c : Cell) :
  Forall (fun c' => ~ (X c' = X c /\ Y c' = Y c)) l2 ->
  lastAt (l1 ++ c :: l2) (X c) (Y c) = Some (C c).
Proof.
  intros Hlater. rewrite lastAt_app. simpl.
  replace (lastAt l2 (X c) (Y c)) with (@None gostring).
  - by rewrite decide_True.
  - symmetry. apply lastAt_None.
    eapply Forall_impl; [exact Hlater|]. simpl. intros c' Hc' [? ?]. by apply Hc'.
Qed.

(** ** The rendered grid *)

(** C1, as amended: for every well-formed list of records, that is a
    non-empty list with non-negative coordinates whose grid [make] allocates,
    with payloads of at most one character, the renderer prints exactly
    [maxY+1] lines, and every printed line, trimmed, has at most [maxX+1]
    characters. *)
Theorem render_lines_within_grid (cells : list Cell) (g0 : Grid) :
  cells <> [] ->
  Forall typed cells ->
  Forall nonNegative cells ->
  initGrid (maxX cells) (maxY cells) = inr g0 ->
  Forall (fun c => (length (C c) <= 1)%nat) cells ->
  linesWithinGrid cells.
Proof.
  intros _ Hty Hnn Hg0 Hshort.
  pose proof (allocated_drawable cells g0 Hty Hnn Hg0) as Hall.
  destruct (render_drawn cells Hall) as [_ Hr].
  eexists. split; [exact Hr|]. split.
  - rewrite length_fmap, downFrom_length. pose proof (maxY_nonneg cells). lia.
  - apply Forall_fmap, Forall_forall. intros i Hi%downFrom_bounds. simpl.
    destruct (drawn_row cells i Hi) as (row & Hrow & -> & Hlen).
    assert (Forall (fun s : gostring => (length s <= 1)%nat) row) as Hrow1.
    { assert (narrow (drawn cells)) as Hn
        by (apply narrow_foldl_poke; [apply narrow_blankGrid|done]).
      unfold narrow in Hn. rewrite Forall_forall in Hn. apply Hn.
      apply index_Some in Hrow as [_ Hrow]. by eapply list_elem_of_lookup_2. }
    pose proof (length_renderRow row Hrow1). lia.
Qed.

Lemma render_lines_within_grid_witness :
  linesWithinGrid [mkCell 0 1 (str "A"); mkCell 2 0 (str "B")].
Proof.
  apply (render_lines_within_grid
           [mkCell 0 1 (str "A"); mkCell 2 0 (str "B")]
           (blankGrid 2 3)).
  - discriminate.
  - repeat constructor; unfold is_int, min_int, max_int, intSize; simpl; lia.
  - repeat constructor; simpl; lia.
  - reflexivity.
  - repeat constructor; simpl; lia.
Defined.

(** C1, as stated, fails on a record whose payload is a short string: the
    single record (0, "AB", 0) is what the extractor returns for a table with
    one such row, its coordinates are not negative and its grid of one cell
    is allocated, and its line has two characters where [maxX+1] is one. *)
Lemma short_string_exceeds_grid_width :
  parseCharacterGridFromDoc (exDoc [exTable [exRow "x" "c" "y"; exRow "0" "AB" "0"]])
  = [mkCell 0 0 (str "AB")]
  /\ [mkCell 0 0 (str "AB")] <> []
  /\ Forall nonNegative [mkCell 0 0 (str "AB")]
  /\ initGrid (maxX [mkCell 0 0 (str "AB")]) (maxY [mkCell 0 0 (str "AB")])
     = inr [[blank]]
  /\ renderGridFromCells [mkCell 0 0 (str "AB")] = ([str "AB"], None)
  /\ ~ linesWithinGrid [mkCell 0 0 (str "AB")].
Proof.
  split; [reflexivity|]. split; [discriminate|]. split.
  { repeat constructor; simpl; lia. }
  split; [reflexivity|]. split; [reflexivity|].
  intros (lines & Hr & _ & Hw).
  change (([str "AB"], None) = (lines, @None panic)) in Hr. injection Hr as <-.
  apply Forall_cons_1 in Hw as [Hw _]. vm_compute in Hw. by apply Hw.
Qed.

(** C2: the records (0, "A", 1) and (2, "B", 0) are printed as the two lines
    "A" and "  B", in this order, and the run ends normally. *)
Theorem render_scenario_A_B :
  renderGridFromCells [mkCell 0 1 (str "A"); mkCell 2 0 (str "B")]
  = ([str "A"; str "  B"], None).
Proof. reflexivity. Qed.

(** C3, as amended: for every non-empty list of records with non-negative
    coordinates whose grid [make] allocates, the k-th printed line is the row
    [maxY - k] of the grid, for k from 0 to [maxY]: the row of any record with
    the largest y is printed first, the row 0 last, the row of a record is
    the line of index [maxY - y], and it holds at the column of the record
    the payload of the last record of that coordinate. *)
Theorem rows_printed_in_decreasing_y (cells : list Cell) (g0 : Grid) :
  cells <> [] ->
  Forall typed cells ->
  Forall nonNegative cells ->
  initGrid (maxX cells) (maxY cells) = inr g0 ->
  exists g lines,
    placedGrid cells = Some g
    /\ renderGridFromCells cells = (lines, None)
    /\ (forall k : nat, Z.of_nat k <= maxY cells ->
          lines !! k = Some (renderRow (rowAt g (maxY cells - Z.of_nat k))))
    /\ (forall k : nat, maxY cells < Z.of_nat k -> lines !! k = None)
    /\ (forall c, c ∈ cells -> Y c = maxY cells ->
          head lines = Some (renderRow (rowAt g (Y c))))
    /\ last lines = Some (renderRow (rowAt g 0))
    /\ (forall c, c ∈ cells ->
          lines !! Z.to_nat (maxY cells - Y c) = Some (renderRow (rowAt g (Y c))))
    /\ (forall l1 c l2, cells = l1 ++ c :: l2 ->
          Forall (fun c' => ~ (X c' = X c /\ Y c' = Y c)) l2 ->
          index (rowAt g (Y c)) (X c) = Some (C c)).
Proof.
  intros _ Hty Hnn Hg0.
  pose proof (allocated_drawable cells g0 Hty Hnn Hg0) as Hall.
  destruct (render_drawn cells Hall) as [Hg Hr].
  pose proof (maxY_nonneg cells) as HY.
  exists (drawn cells). eexists. split; [exact Hg|]. split; [exact Hr|].
  assert (forall k : nat, Z.of_nat k <= maxY cells ->
    ((fun i => renderRow (rowAt (drawn cells) i)) <$> downFrom (maxY cells)) !! k
    = Some (renderRow (rowAt (drawn cells) (maxY cells - Z.of_nat k)))) as Hline.
  { intros k Hk. rewrite list_lookup_fmap, downFrom_lookup by lia. done. }
  split_and!.
  - exact Hline.
  - intros k Hk. apply lookup_ge_None.
    rewrite length_fmap, downFrom_length. lia.
  - intros c _ ->. rewrite head_lookup, (Hline 0%nat) by lia.
    by rewrite Z.sub_0_r.
  - rewrite last_lookup, length_fmap, downFrom_length.
    replace (Init.Nat.pred (Z.to_nat (maxY cells + 1)))
      with (Z.to_nat (maxY cells)) by lia.
    rewrite Hline by lia. do 3 f_equal. lia.
  - intros c Hin. pose proof (maxY_ge _ _ Hin) as Hle.
    rewrite Forall_forall in Hnn. destruct (Hnn c Hin) as [_ HY0].
    rewrite Hline by lia. do 3 f_equal. lia.
  - intros l1 c l2 Hcells Hlater.
    destruct (render_drawable cells Hall) as (g & Hg' & _ & Hat & _).
    rewrite Hg in Hg'. injection Hg' as <-.
    rewrite <- cellAt_rowAt, Hat, Hcells. by rewrite lastAt_last.
Qed.

Lemma rows_printed_in_decreasing_y_witness :
  exists g lines,
    placedGrid [mkCell 0 1 (str "A"); mkCell 2 0 (str "B")] = Some g
    /\ renderGridFromCells [mkCell 0 1 (str "A"); mkCell 2 0 (str "B")] = (lines, None)
    /\ head lines = Some (renderRow (rowAt g 1))
    /\ last lines = Some (renderRow (rowAt g 0))
    /\ index (rowAt g 0) 2 = Some (str "B").
Proof.
  destruct (rows_printed_in_decreasing_y
              [mkCell 0 1 (str "A"); mkCell 2 0 (str "B")] (blankGrid 2 3))
    as (g & lines & Hg & Hr & _ & _ & Hhead & Hlast & _ & Hcell).
  - discriminate.
  - repeat constructor; unfold is_int, min_int, max_int, intSize; simpl; lia.
  - repeat constructor; simpl; lia.
  - reflexivity.
  - exists g, lines. split_and!; [done|done| |done|].
    + apply (Hhead (mkCell 0 1 (str "A"))); [left|reflexivity].
    + apply (Hcell [mkCell 0 1 (str "A")] (mkCell 2 0 (str "B")) []);
        [reflexivity|constructor].
Defined.

(** C3, as stated, fails on a record with a negative coordinate, which the
    extractor returns for a row such as (-1, A, 0): the write of the record
    panics with an index out of range and no line is printed, so that the
    row of the record with the largest y is not the first printed line. *)
Lemma negative_coordinate_prints_no_row :
  parseCharacterGridFromDoc (exDoc [exTable [exRow "x" "c" "y"; exRow "-1" "A" "0"]])
  = [mkCell (-1) 0 (str "A")]
  /\ [mkCell (-1) 0 (str "A")] <> []
  /\ renderGridFromCells [mkCell (-1) 0 (str "A")] = ([], Some IndexOutOfRange)
  /\ head (fst (renderGridFromCells [mkCell (-1) 0 (str "A")])) = None.
Proof. split_and!; [reflexivity|discriminate|reflexivity|reflexivity]. Qed.

(** ** Records that share a coordinate *)

Lemma inb_coords (sh : list nat) (c c' : Cell) :
  X c = X c' -> Y c = Y c' -> inb sh c = inb sh c'.
Proof. unfold inb. by intros -> ->. Qed.

Lemma lastAt_drop_overwritten (l1 l2 l3 : list Cell) (c1 c2 : Cell) (x y : Z) :
  X c1 = X c2 -> Y c1 = Y c2 ->
  lastAt (l1 ++ c1 :: l2 ++ c2 :: l3) x y = lastAt (l1 ++ l2 ++ c2 :: l3) x y.
Proof.
  intros HX HY. rewrite !(lastAt_app l1). simpl.
  destruct (lastAt (l2 ++ c2 :: l3) x y) eqn:Hrest; [done|].
  apply lastAt_None in Hrest. rewrite Forall_app, Forall_cons in Hrest.
  destruct Hrest as (_ & Hc2 & _).
  rewrite decide_False; [done|]. by rewrite HX, HY.
Qed.

Lemma forallb_drop_overwritten (sh : list nat) (l1 l2 l3 : list Cell) (c1 c2 : Cell) :
  X c1 = X c2 -> Y c1 = Y c2 ->
  forallb (inb sh) (l1 ++ c1 :: l2 ++ c2 :: l3)
  = forallb (inb sh) (l1 ++ l2 ++ c2 :: l3).
Proof.
  intros HX HY. rewrite !forallb_app. simpl. rewrite !forallb_app. simpl.
  rewrite (inb_coords sh c1 c2 HX HY).
  destruct (forallb (inb sh) l1), (inb sh c2), (forallb (inb sh) l2); done.
Qed.

Lemma placeAll_drop_overwritten (g : Grid) (l1 l2 l3 : list Cell) (c1 c2 : Cell) :
  X c1 = X c2 -> Y c1 = Y c2 ->
  placeAll g (l1 ++ c1 :: l2 ++ c2 :: l3) = placeAll g (l1 ++ l2 ++ c2 :: l3).
Proof.
  intros HX HY. rewrite !placeAll_poke.
  rewrite (forallb_drop_overwritten _ l1 l2 l3 c1 c2 HX HY).
  destruct (forallb (inb (shape g)) (l1 ++ l2 ++ c2 :: l3)) eqn:Hin; [|done].
  f_equal. apply grid_ext; [by rewrite !shape_foldl_poke|].
  intros x y. rewrite !cellAt_foldl_poke.
  - by rewrite (lastAt_drop_overwritten l1 l2 l3 c1 c2 x y HX HY).
  - done.
  - by rewrite (forallb_drop_overwritten _ l1 l2 l3 c1 c2 HX HY).
Qed.

Lemma maxX_le (l l' : list Cell) :
  (forall c, c ∈ l -> exists c', c' ∈ l' /\ X c = X c') -> maxX l <= maxX l'.
Proof.
  intros Hsub. destruct (maxX_attained l) as [->|(c & Hin & <-)].
  - apply maxX_nonneg.
  - destruct (Hsub c Hin) as (c' & Hin' & ->). by apply maxX_ge.
Qed.

Lemma maxY_le (l l' : list Cell) :
  (forall c, c ∈ l -> exists c', c' ∈ l' /\ Y c = Y c') -> maxY l <= maxY l'.
Proof.
  intros Hsub. destruct (maxY_attained l) as [->|(c & Hin & <-)].
  - apply maxY_nonneg.
  - destruct (Hsub c Hin) as (c' & Hin' & ->). by apply maxY_ge.
Qed.

Lemma maxXY_drop_overwritten (l1 l2 l3 : list Cell) (c1 c2 : Cell) :
  X c1 = X c2 -> Y c1 = Y c2 ->
  maxXY (l1 ++ c1 :: l2 ++ c2 :: l3) = maxXY (l1 ++ l2 ++ c2 :: l3).
Proof.
  intros HX HY. rewrite !maxXY_pair.
  assert (forall c, c ∈ l1 ++ c1 :: l2 ++ c2 :: l3 ->
            c = c1 \/ c ∈ l1 ++ l2 ++ c2 :: l3) as Hfwd.
  { intros c. rewrite !elem_of_app, !elem_of_cons, !elem_of_app, !elem_of_cons.
    tauto. }
  assert (forall c, c ∈ l1 ++ l2 ++ c2 :: l3 -> c ∈ l1 ++ c1 :: l2 ++ c2 :: l3)
    as Hbwd.
  { intros c. rewrite !elem_of_app, !elem_of_cons, !elem_of_app, !elem_of_cons.
    tauto. }
  assert (c2 ∈ l1 ++ l2 ++ c2 :: l3) as Hc2.
  { rewrite !elem_of_app, !elem_of_cons. tauto. }
  f_equal; apply Z.le_antisymm.
  - apply maxX_le. intros c [->|Hin]%Hfwd; eauto.
  - apply maxX_le. intros c Hin%Hbwd; eauto.
  - apply maxY_le. intros c [->|Hin]%Hfwd; eauto.
  - apply maxY_le. intros c Hin%Hbwd; eauto.
Qed.

(** C4: when two records share a coordinate, the earlier one has no effect
    on the output, whatever the run; and on an allocated grid, with
    coordinates that are not negative, the cell holds the payload of the last
    record of that coordinate, and its row is printed. *)
Theorem later_record_overwrites (l1 l2 l3 : list Cell) (c1 c2 : Cell) :
  X c1 = X c2 -> Y c1 = Y c2 ->
  renderGridFromCells (l1 ++ c1 :: l2 ++ c2 :: l3)
  = renderGridFromCells (l1 ++ l2 ++ c2 :: l3)
  /\ (Forall (fun c => ~ (X c = X c2 /\ Y c = Y c2)) l3 ->
      Forall typed (l1 ++ c1 :: l2 ++ c2 :: l3) ->
      Forall nonNegative (l1 ++ c1 :: l2 ++ c2 :: l3) ->
      forall g0,
      initGrid (maxX (l1 ++ c1 :: l2 ++ c2 :: l3)) (maxY (l1 ++ c1 :: l2 ++ c2 :: l3))
      = inr g0 ->
      exists g lines,
        placedGrid (l1 ++ c1 :: l2 ++ c2 :: l3) = Some g
        /\ cellAt g (X c2) (Y c2) = Some (C c2)
        /\ renderGridFromCells (l1 ++ c1 :: l2 ++ c2 :: l3) = (lines, None)
        /\ lines !! Z.to_nat (maxY (l1 ++ c1 :: l2 ++ c2 :: l3) - Y c2)
           = Some (renderRow (rowAt g (Y c2)))).
Proof.
  intros HX HY. split.
  - unfold renderGridFromCells.
    rewrite (maxXY_drop_overwritten l1 l2 l3 c1 c2 HX HY).
    destruct (maxXY (l1 ++ l2 ++ c2 :: l3)) as [mx my].
    destruct (initGrid mx my) as [p|g0]; [done|].
    by rewrite (placeAll_drop_overwritten g0 l1 l2 l3 c1 c2 HX HY).
  - intros Hlast Hty Hnn g0 Hg0. set (cells := l1 ++ c1 :: l2 ++ c2 :: l3) in *.
    pose proof (allocated_drawable cells g0 Hty Hnn Hg0) as Hall.
    destruct (render_drawable cells Hall) as (g & Hg & _ & Hat & Hr).
    exists g. eexists. split_and!; [exact Hg| |exact Hr|].
    + rewrite Hat. unfold cells.
      rewrite lastAt_app. simpl. rewrite lastAt_app. simpl.
      replace (lastAt l3 (X c2) (Y c2)) with (@None gostring).
      * by rewrite decide_True.
      * symmetry. apply lastAt_None.
        eapply Forall_impl; [exact Hlast|]. simpl. intros c Hc [? ?]. by apply Hc.
    + assert (c2 ∈ cells) as Hc2.
      { unfold cells. rewrite !elem_of_app, !elem_of_cons, !elem_of_app, !elem_of_cons.
        tauto. }
      pose proof (maxY_ge _ _ Hc2) as Hle.
      rewrite Forall_forall in Hnn. destruct (Hnn c2 Hc2) as [_ HY0].
      rewrite list_lookup_fmap, downFrom_lookup by lia. simpl.
      do 3 f_equal. lia.
Qed.

Lemma later_record_overwrites_witness :
  renderGridFromCells [mkCell 1 0 (str "x"); mkCell 0 0 (str "y"); mkCell 1 0 (str "z")]
  = renderGridFromCells [mkCell 0 0 (str "y"); mkCell 1 0 (str "z")]
  /\ exists g lines,
       placedGrid [mkCell 1 0 (str "x"); mkCell 0 0 (str "y"); mkCell 1 0 (str "z")]
       = Some g
       /\ cellAt g 1 0 = Some (str "z")
       /\ renderGridFromCells
            [mkCell 1 0 (str "x"); mkCell 0 0 (str "y"); mkCell 1 0 (str "z")]
          = (lines, None)
       /\ lines !! 0%nat = Some (renderRow (rowAt g 0)).
Proof.
  destruct (later_record_overwrites [] [mkCell 0 0 (str "y")] []
              (mkCell 1 0 (str "x")) (mkCell 1 0 (str "z")))
    as [Heq Hcell]; [reflexivity|reflexivity|].
  split; [exact Heq|].
  apply (Hcell ltac:(constructor)) with (g0 := blankGrid 1 2).
  - repeat constructor; unfold is_int, min_int, max_int, intSize; simpl; lia.
  - repeat constructor; simpl; lia.
  - reflexivity.
Defined.

(** ** Bounds of the grid writes *)

(** C9: when no record has a negative coordinate, every record satisfies
    [0 <= Y <= maxY] and [0 <= X <= maxX], every write of the placement loop
    passes its bounds checks on the allocated grid, and no run of the
    renderer ends in an index out of range. *)
Theorem grid_writes_in_bounds (cells : list Cell) :
  Forall typed cells ->
  Forall nonNegative cells ->
  Forall (fun c => 0 <= Y c <= maxY cells /\ 0 <= X c <= maxX cells) cells
  /\ (forall g0, initGrid (maxX cells) (maxY cells) = inr g0 ->
        forallb (inb (shape g0)) cells = true /\ is_Some (placeAll g0 cells))
  /\ snd (renderGridFromCells cells) <> Some IndexOutOfRange.
Proof.
  intros Hty Hnn. split_and!.
  - apply Forall_forall. intros c Hin.
    rewrite Forall_forall in Hnn. destruct (Hnn c Hin) as [? ?].
    pose proof (maxX_ge _ _ Hin). pose proof (maxY_ge _ _ Hin). lia.
  - intros g0 Hg0.
    pose proof (allocated_drawable cells g0 Hty Hnn Hg0) as Hall.
    rewrite initGrid_drawable in Hg0 by done.
    injection Hg0 as <-.
    rewrite placeAll_poke, shape_blankGrid, inb_blank_all by done.
    split; [done|by eexists].
  - destruct (initGrid (maxX cells) (maxY cells)) as [p|g0] eqn:Hg0.
    + unfold renderGridFromCells. rewrite maxXY_pair, Hg0. simpl.
      apply initGrid_inl in Hg0 as ->. done.
    + pose proof (allocated_drawable cells g0 Hty Hnn Hg0) as Hall.
      destruct (render_drawn cells Hall) as [_ ->]. done.
Qed.

Lemma grid_writes_in_bounds_witness :
  Forall (fun c => 0 <= Y c <= 1 /\ 0 <= X c <= 2)
         [mkCell 0 1 (str "A"); mkCell 2 0 (str "B")]
  /\ snd (renderGridFromCells [mkCell 0 1 (str "A"); mkCell 2 0 (str "B")])
     <> Some IndexOutOfRange.
Proof.
  destruct (grid_writes_in_bounds [mkCell 0 1 (str "A"); mkCell 2 0 (str "B")])
    as (Hb & _ & Hr).
  - repeat constructor; unfold is_int, min_int, max_int, intSize; simpl; lia.
  - repeat constructor; simpl; lia.
  - split; [exact Hb|exact Hr].
Defined.

(** ** Payloads of any length *)

Lemma column_sum (row : list gostring) (x : nat) :
  column row x = sum_list (length <$> take x row).
Proof. unfold column. by rewrite Join_nil_sep, length_concat_sum. Qed.

Lemma column_0 (row : list gostring) : column row 0 = 0%nat.
Proof. unfold column. by rewrite take_0. Qed.

Lemma column_S (s : gostring) (row : list gostring) (k : nat) :
  column (s :: row) (S k) = (length s + column row k)%nat.
Proof. rewrite !column_sum. done. Qed.

Lemma columns_kept_iff (row : list gostring) (x : nat) :
  (x <= length row)%nat ->
  (forall k, (k <= x)%nat -> column row k = k)
  <-> Forall (fun s : gostring => length s = 1%nat) (take x row).
Proof.
  revert x. induction row as [|s row IH]; intros [|x] Hx; simpl in Hx; try lia.
  - split; [constructor|]. intros _ k Hk.
    replace k with 0%nat by lia. apply column_0.
  - split; [constructor|]. intros _ k Hk.
    replace k with 0%nat by lia. apply column_0.
  - simpl take. rewrite Forall_cons, <- IH by lia. split.
    + intros Hk.
      assert (length s = 1%nat) as Hs.
      { specialize (Hk 1%nat ltac:(lia)). rewrite column_S, column_0 in Hk. lia. }
      split; [done|]. intros k Hle.
      specialize (Hk (S k) ltac:(lia)). rewrite column_S in Hk. lia.
    + intros [Hs Hrow] [|k] Hle; [apply column_0|].
      rewrite column_S, Hrow by lia. lia.
Qed.

(** C10, as amended: the extractor accepts a row whose character cell trims
    to the empty string and records an empty payload; the renderer prints
    the concatenation of the cells of a row, right-trimmed, so that the cell
    [x] starts at the display column that is the sum of the lengths to its
    left; the cells up to [x] all start at their own columns exactly when
    every cell to the left of [x] holds exactly one character. *)
Theorem payloads_not_normalised :
  (forall (i : nat) (row c0 c1 c2 : Node) (rest : list Node) (st : Extract) (x y : Z),
     i <> 0%nat ->
     Find (str "td") [row] = c0 :: c1 :: c2 :: rest ->
     Atoi (TrimSpace (nodeText c0)) = Some x ->
     TrimSpace (nodeText c1) = [] ->
     Atoi (TrimSpace (nodeText c2)) = Some y ->
     cells (rowFunc i [row] st) = cells st ++ [mkCell x y []])
  /\ (forall row, renderRow row = TrimRight (concat row) blank)
  /\ (forall row x, column row x = sum_list (length <$> take x row))
  /\ (forall row x, (x <= length row)%nat ->
        (forall k, (k <= x)%nat -> column row k = k)
        <-> Forall (fun s : gostring => length s = 1%nat) (take x row)).
Proof.
  split_and!.
  - intros i row c0 c1 c2 rest st x y Hi Htds Hx Hc Hy.
    rewrite rowFunc_cells by done. unfold specRow.
    by rewrite Htds, Hx, Hy, Hc.
  - intros row. unfold renderRow. by rewrite Join_nil_sep.
  - apply column_sum.
  - apply columns_kept_iff.
Qed.

Lemma payloads_not_normalised_witness :
  cells (rowFunc 1 [exRow "3" "  " "4"] (mkExtract [] [])) = [mkCell 3 4 []]
  /\ ((forall k, (k <= 2)%nat -> column [str "A"; str "B"; str "C"] k = k)
      <-> Forall (fun s : gostring => length s = 1%nat)
                 (take 2 [str "A"; str "B"; str "C"])).
Proof.
  destruct payloads_not_normalised as (Hrow & _ & _ & Hcol). split.
  - apply (Hrow 1%nat (exRow "3" "  " "4")
             (el "td" [TextNode (str "3")]) (el "td" [TextNode (str "  ")])
             (el "td" [TextNode (str "4")]) [] (mkExtract [] []) 3 4);
      [discriminate|reflexivity..].
  - apply Hcol. simpl. lia.
Defined.

(** C10, as stated, fails: in the row of the records (0, empty, 0), (1, "AB", 0)
    and (2, "C", 0) the payload "C" starts at display column 2, its own x,
    while the payloads to its left have the lengths 0 and 2. *)
Lemma column_kept_without_unit_payloads :
  parseCharacterGridFromDoc
    (exDoc [exTable [exRow "x" "c" "y"; exRow "0" " " "0"; exRow "1" "AB" "0";
                     exRow "2" "C" "0"]])
  = [mkCell 0 0 []; mkCell 1 0 (str "AB"); mkCell 2 0 (str "C")]
  /\ renderGridFromCells
    [mkCell 0 0 []; mkCell 1 0 (str "AB"); mkCell 2 0 (str "C")]
  = ([str "ABC"], None)
  /\ placedGrid [mkCell 0 0 []; mkCell 1 0 (str "AB"); mkCell 2 0 (str "C")]
     = Some [[[]; str "AB"; str "C"]]
  /\ column [[]; str "AB"; str "C"] 2 = 2%nat
  /\ ~ Forall (fun s : gostring => length s = 1%nat)
              (take 2 [[]; str "AB"; str "C"]).
Proof.
  split_and!; [reflexivity..|].
  intros H. apply Forall_cons_1 in H as [H _]. discriminate H.
Qed.

(** ** Rows that the extractor passes over *)

(** C5: a row after the header with fewer than three cells, or with an x or
    y cell that is not an integer, adds no record; the rows before and after
    it are processed, and the result is that of the document without the
    row. *)
Theorem bad_rows_are_skipped
    (doc doc' : Document) (header row : Node) (before after : list Node) :
  tableRows doc = header :: before ++ row :: after ->
  tableRows doc' = header :: before ++ after ->
  tooFewCells row \/ badCoordinate row ->
  (forall i st, i <> 0%nat -> cells (rowFunc i [row] st) = cells st)
  /\ parseCharacterGridFromDoc doc = omap specRow before ++ omap specRow after
  /\ parseCharacterGridFromDoc doc = parseCharacterGridFromDoc doc'.
Proof.
  intros Hdoc Hdoc' Hbad. pose proof (specRow_skipped row Hbad) as Hrow.
  assert (parseCharacterGridFromDoc doc = omap specRow before ++ omap specRow after)
    as Hparse.
  { rewrite (parse_rows doc header _ Hdoc), omap_app. simpl. by rewrite Hrow. }
  split_and!.
  - intros i st Hi. rewrite rowFunc_cells, Hrow by done. apply app_nil_r.
  - exact Hparse.
  - by rewrite Hparse, (parse_rows doc' header _ Hdoc'), omap_app.
Qed.

Lemma bad_rows_are_skipped_witness :
  parseCharacterGridFromDoc
    (exDoc [exTable [exRow "x" "c" "y"; exRow "0" "A" "1"; exRow "abc" "Z" "5";
                     exRow "2" "B" "0"]])
  = [mkCell 0 1 (str "A"); mkCell 2 0 (str "B")]
  /\ parseCharacterGridFromDoc
       (exDoc [exTable [exRow "x" "c" "y"; exRow "0" "A" "1"; exRow "abc" "Z" "5";
                        exRow "2" "B" "0"]])
     = parseCharacterGridFromDoc
         (exDoc [exTable [exRow "x" "c" "y"; exRow "0" "A" "1"; exRow "2" "B" "0"]]).
Proof.
  destruct (bad_rows_are_skipped
              (exDoc [exTable [exRow "x" "c" "y"; exRow "0" "A" "1";
                               exRow "abc" "Z" "5"; exRow "2" "B" "0"]])
              (exDoc [exTable [exRow "x" "c" "y"; exRow "0" "A" "1";
                               exRow "2" "B" "0"]])
              (exRow "x" "c" "y") (exRow "abc" "Z" "5")
              [exRow "0" "A" "1"] [exRow "2" "B" "0"])
    as (_ & Hparse & Heq).
  - reflexivity.
  - reflexivity.
  - right. left. reflexivity.
  - split; [exact Hparse|exact Heq].
Defined.

(** ** The contract of the extractor *)

(** C6: the extractor returns what section 4.1 describes: the rows of the
    first table without the row of index 0, each row with at least three
    cells giving the record of its trimmed cells 0, 1 and 2 when the cells 0
    and 2 are integers; two documents with the same first table give the
    same records. *)
Theorem extractor_contract (doc : Document) :
  parseCharacterGridFromDoc doc = specExtract doc
  /\ forall doc',
       head (DocFind (str "table") doc') = head (DocFind (str "table") doc) ->
       parseCharacterGridFromDoc doc' = parseCharacterGridFromDoc doc.
Proof.
  split; [apply parse_spec|].
  intros doc' Hhead. rewrite !parse_spec. unfold specExtract.
  destruct (DocFind (str "table") doc') as [|t' ?],
           (DocFind (str "table") doc) as [|t ?]; simpl in Hhead; try done.
  by injection Hhead as ->.
Qed.

Lemma extractor_contract_witness :
  parseCharacterGridFromDoc
    (exDoc [exTable [exRow "x" "c" "y"; exRow " 7 " " Q " " -1 "];
            exTable [exRow "x" "c" "y"; exRow "1" "R" "1"]])
  = parseCharacterGridFromDoc
      (exDoc [exTable [exRow "x" "c" "y"; exRow " 7 " " Q " " -1 "]]).
Proof.
  apply (proj2 (extractor_contract
                  (exDoc [exTable [exRow "x" "c" "y"; exRow " 7 " " Q " " -1 "]]))).
  reflexivity.
Defined.

Example extract_first_table_only :
  parseCharacterGridFromDoc
    (exDoc [exTable [exRow "x" "c" "y"; exRow " 7 " " Q " " -1 "];
            exTable [exRow "x" "c" "y"; exRow "1" "R" "1"]])
  = [mkCell 7 (-1) (str "Q")].
Proof. reflexivity. Qed.

(** ** The fatal exits of main *)

Lemma rowFunc_logged (i : nat) (s : list Node) (st : Extract) :
  Forall (fun m => isFetchStatus m = false) (logged st) ->
  Forall (fun m => isFetchStatus m = false) (logged (rowFunc i s st)).
Proof.
  intros Hst. unfold rowFunc.
  repeat case_match; simpl; try done;
    (apply Forall_app; split; [done|by repeat constructor]).
Qed.

Lemma EachFrom_logged (rows : list Node) (i : nat) (st : Extract) :
  Forall (fun m => isFetchStatus m = false) (logged st) ->
  Forall (fun m => isFetchStatus m = false) (logged (EachFrom rowFunc i rows st)).
Proof.
  revert i st. induction rows as [|r rows IH]; intros i st Hst; simpl; [done|].
  by apply IH, rowFunc_logged.
Qed.

Lemma extract_logged (doc : Document) :
  Forall (fun m => isFetchStatus m = false) (logged (extract doc)).
Proof. unfold extract, Each. apply EachFrom_logged. constructor. Qed.

Lemma last_not_FetchStatus (log : list LogMsg) (code : Z) :
  Forall (fun m => isFetchStatus m = false) log ->
  last log <> Some (FetchStatus code).
Proof.
  intros Hall Hlast. rewrite Forall_forall in Hall.
  by specialize (Hall _ (last_Some_elem_of _ _ Hlast)).
Qed.

Section MainProperties.

Variable Body : Type.
Variable Get : gostring -> gostring + Response Body.
Variable NewDocumentFromReader : Body -> gostring + Document.

Lemma parseAndRender_stderr (body : Body) :
  Forall (fun m => isFetchStatus m = false)
         (stderr (parseAndRender Body NewDocumentFromReader body)).
Proof.
  unfold parseAndRender.
  destruct (NewDocumentFromReader body) as [err|doc]; simpl.
  - by repeat constructor.
  - pose proof (extract_logged doc) as Hlog.
    destruct (length (cells (extract doc)) =? 0)%nat; simpl.
    + apply Forall_app. split; [done|by repeat constructor].
    + by destruct (renderGridFromCells (cells (extract doc))).
Qed.

(** C7: when the document is fetched and parsed and the extraction returns
    no record, the run ends by the fatal exit of the logger, with the exit
    status 1, after the message "No valid table data found.", and no line
    of a grid is written to standard output. *)
Theorem empty_extraction_is_fatal
    (prog url : gostring) (rest : list gostring) (resp : Response Body)
    (doc : Document) :
  Get url = inr resp ->
  StatusCode resp = 200 ->
  NewDocumentFromReader (RespBody resp) = inr doc ->
  parseCharacterGridFromDoc doc = [] ->
  status (main Body Get NewDocumentFromReader (prog :: url :: rest)) = Fatal
  /\ exitCode (status (main Body Get NewDocumentFromReader (prog :: url :: rest))) <> 0
  /\ last (stderr (main Body Get NewDocumentFromReader (prog :: url :: rest)))
     = Some NoValidTableData
  /\ format NoValidTableData = "No valid table data found."%string
  /\ Forall (fun o => isGridLine o = false)
            (stdout (main Body Get NewDocumentFromReader (prog :: url :: rest))).
Proof.
  intros Hget Hcode Hdoc Hcells. unfold main. rewrite Hget, Hcode. simpl.
  unfold parseAndRender. rewrite Hdoc.
  unfold parseCharacterGridFromDoc in Hcells. rewrite Hcells. simpl.
  split_and!; [done|done|apply last_snoc|done|by repeat constructor].
Qed.

(** C8, as amended: the fetch is fatal exactly when the status of the
    response is not 200: every other status, inside or outside the 2xx
    range, ends the run with the message of the failed fetch, and the
    status 200 alone goes on to the parsing of the body. *)
Theorem fetch_fatal_unless_200
    (prog url : gostring) (rest : list gostring) (resp : Response Body) :
  Get url = inr resp ->
  (StatusCode resp <> 200 ->
     main Body Get NewDocumentFromReader (prog :: url :: rest)
     = fatal [] [] (FetchStatus (StatusCode resp)))
  /\ (~ 200 <= StatusCode resp < 300 ->
     main Body Get NewDocumentFromReader (prog :: url :: rest)
     = fatal [] [] (FetchStatus (StatusCode resp)))
  /\ (StatusCode resp = 200 ->
     main Body Get NewDocumentFromReader (prog :: url :: rest)
     = parseAndRender Body NewDocumentFromReader (RespBody resp))
  /\ ((exists code,
         last (stderr (main Body Get NewDocumentFromReader (prog :: url :: rest)))
         = Some (FetchStatus code))
      <-> StatusCode resp <> 200).
Proof.
  intros Hget.
  assert (StatusCode resp <> 200 ->
          main Body Get NewDocumentFromReader (prog :: url :: rest)
          = fatal [] [] (FetchStatus (StatusCode resp))) as Hne.
  { intros Hcode. unfold main. rewrite Hget.
    by destruct (Z.eqb_spec (StatusCode resp) 200). }
  assert (StatusCode resp = 200 ->
          main Body Get NewDocumentFromReader (prog :: url :: rest)
          = parseAndRender Body NewDocumentFromReader (RespBody resp)) as Heq.
  { intros Hcode. unfold main. by rewrite Hget, Hcode. }
  split_and!; [exact Hne| |exact Heq|].
  - intros Hout. apply Hne. lia.
  - split.
    + intros [code Hlast] Hcode. rewrite (Heq Hcode) in Hlast.
      by apply (last_not_FetchStatus _ _ (parseAndRender_stderr _)) in Hlast.
    + intros Hcode. rewrite (Hne Hcode). by eexists.
Qed.

End MainProperties.

Lemma empty_extraction_is_fatal_witness :
  status (main unit (fun _ => inr (mkResponse 200 tt))
               (fun _ => inr (exDoc [exTable [exRow "x" "c" "y"; exRow "abc" "A" "0"]]))
               [str "decoder"; str "https://example.org/doc"]) = Fatal
  /\ Forall (fun o => isGridLine o = false)
       (stdout (main unit (fun _ => inr (mkResponse 200 tt))
                  (fun _ => inr (exDoc [exTable [exRow "x" "c" "y"; exRow "abc" "A" "0"]]))
                  [str "decoder"; str "https://example.org/doc"])).
Proof.
  destruct (empty_extraction_is_fatal unit (fun _ => inr (mkResponse 200 tt))
              (fun _ => inr (exDoc [exTable [exRow "x" "c" "y"; exRow "abc" "A" "0"]]))
              (str "decoder") (str "https://example.org/doc") []
              (mkResponse 200 tt)
              (exDoc [exTable [exRow "x" "c" "y"; exRow "abc" "A" "0"]]))
    as (Hstatus & _ & _ & _ & Hout); [reflexivity..|].
  split; [exact Hstatus|exact Hout].
Defined.

Lemma fetch_fatal_unless_200_witness :
  main unit (fun _ => inr (mkResponse 404 tt)) (fun _ => inr (exDoc []))
       [str "decoder"; str "https://example.org/doc"]
  = fatal [] [] (FetchStatus 404).
Proof.
  destruct (fetch_fatal_unless_200 unit (fun _ => inr (mkResponse 404 tt))
              (fun _ => inr (exDoc []))
              (str "decoder") (str "https://example.org/doc") []
              (mkResponse 404 tt))
    as (Hne & _); [reflexivity|].
  apply Hne. discriminate.
Defined.

(** C8, as stated, fails: the status 201 is in the 2xx range, and the run is
    fatal all the same, before any parsing. *)
Lemma status_201_is_fatal :
  200 <= 201 < 300
  /\ main unit (fun _ => inr (mkResponse 201 tt))
          (fun _ => inr (exDoc [exTable [exRow "x" "c" "y"; exRow "0" "A" "0"]]))
          [str "decoder"; str "https://example.org/doc"]
     = fatal [] [] (FetchStatus 201)
  /\ main unit (fun _ => inr (mkResponse 201 tt))
          (fun _ => inr (exDoc [exTable [exRow "x" "c" "y"; exRow "0" "A" "0"]]))
          [str "decoder"; str "https://example.org/doc"]
     <> parseAndRender unit
          (fun _ => inr (exDoc [exTable [exRow "x" "c" "y"; exRow "0" "A" "0"]])) tt.
Proof.
  split; [lia|]. split; [reflexivity|]. intros H. vm_compute in H. discriminate H.
Qed.


(** * Further properties of the code *)

(** ** Trimming *)

Lemma TrimLeftFunc_split (f : rune -> bool) (s : gostring) :
  exists pre,
    s = pre ++ TrimLeftFunc f s
    /\ Forall (fun r => f r = true) pre
    /\ (forall r, head (TrimLeftFunc f s) = Some r -> f r = false).
Proof.
  induction s as [|r s (pre & Hs & Hpre & Hhead)]; simpl.
  - exists []. split_and!; [done|constructor|done].
  - destruct (f r) eqn:Hr.
    + exists (r :: pre). split_and!; [by rewrite Hs at 1|by constructor|done].
    + exists []. split_and!; [done|constructor|]. simpl. by intros ? [= <-].
Qed.

Lemma TrimRightFunc_split (f : rune -> bool) (s : gostring) :
  exists suf,
    s = TrimRightFunc f s ++ suf
    /\ Forall (fun r => f r = true) suf
    /\ (forall r, last (TrimRightFunc f s) = Some r -> f r = false).
Proof.
  unfold TrimRightFunc.
  destruct (TrimLeftFunc_split f (reverse s)) as (pre & Hs & Hpre & Hhead).
  exists (reverse pre). split_and!.
  - rewrite <- reverse_app, <- Hs. by rewrite reverse_involutive.
  - by apply Forall_reverse.
  - intros r. rewrite last_reverse. apply Hhead.
Qed.

Lemma TrimRightFunc_lookup (f : rune -> bool) (s : gostring) (i : nat) (r : rune) :
  s !! i = Some r -> f r = false -> TrimRightFunc f s !! i = Some r.
Proof.
  intros Hi Hr. destruct (TrimRightFunc_split f s) as (suf & Hs & Hsuf & _).
  rewrite Hs in Hi. apply lookup_app_Some in Hi as [Hi|[_ Hi]]; [done|].
  rewrite Forall_forall in Hsuf.
  rewrite (Hsuf r) in Hr; [done|]. by eapply list_elem_of_lookup_2.
Qed.

Lemma TrimRightFunc_all (f : rune -> bool) (s : gostring) :
  Forall (fun r => f r = true) s -> TrimRightFunc f s = [].
Proof.
  intros Hall. destruct (TrimRightFunc_split f s) as (suf & Hs & _ & Hlast).
  destruct (last (TrimRightFunc f s)) as [r|] eqn:Hr; [|by apply last_None].
  specialize (Hlast r eq_refl).
  rewrite Forall_forall in Hall. rewrite (Hall r) in Hlast; [done|].
  rewrite Hs. apply elem_of_app. left. by eapply last_Some_elem_of.
Qed.

Lemma TrimRightFunc_head (f : rune -> bool) (s : gostring) (r : rune) :
  head (TrimRightFunc f s) = Some r -> head s = Some r.
Proof.
  intros Hr. destruct (TrimRightFunc_split f s) as (suf & Hs & _ & _).
  rewrite Hs. destruct (TrimRightFunc f s); [done|]. done.
Qed.

Lemma TrimSpace_ends (s : gostring) (r : rune) :
  head (TrimSpace s) = Some r \/ last (TrimSpace s) = Some r -> IsSpace r = false.
Proof.
  unfold TrimSpace. intros [Hhead|Hlast].
  - apply TrimRightFunc_head in Hhead.
    destruct (TrimLeftFunc_split IsSpace s) as (_ & _ & _ & H). by apply H.
  - destruct (TrimRightFunc_split IsSpace (TrimLeftFunc IsSpace s)) as (_ & _ & _ & H).
    by apply H.
Qed.

Lemma blank_cutset (r : rune) : bool_decide (r ∈ blank) = true <-> r = 32.
Proof.
  rewrite bool_decide_eq_true. unfold blank. simpl.
  rewrite list_elem_of_singleton. done.
Qed.

(** ** The three outcomes of the renderer *)

Lemma inb_replicate_iff (h w : nat) (c : Cell) :
  inb (replicate h w) c = true
  <-> 0 <= Y c < Z.of_nat h /\ 0 <= X c < Z.of_nat w.
Proof.
  split; [|intros [? ?]; by apply inb_replicate].
  unfold inb. rewrite index_spec.
  destruct (decide (0 <= Y c)) as [HY|]; [|done].
  destruct (replicate h w !! Z.to_nat (Y c)) as [w'|] eqn:Hw; [|done].
  apply lookup_replicate in Hw as [-> Hlt].
  intros [HX1 HX2]%andb_prop. apply Z.leb_le in HX1. apply Z.ltb_lt in HX2. lia.
Qed.

Lemma nonNegative_not_negative (cells : list Cell) :
  Forall nonNegative cells -> ~ Exists negative cells.
Proof.
  rewrite Forall_forall, Exists_exists. intros Hall (c & Hin & Hneg).
  destruct (Hall c Hin) as [? ?]. unfold negative in Hneg. lia.
Qed.

Lemma drawable_not_negative (cells : list Cell) :
  Forall drawable cells -> ~ Exists negative cells.
Proof. intros Hall. by apply nonNegative_not_negative, drawable_nonneg. Qed.

(** The three runs of the renderer. *)
Lemma render_typed_cases (cells : list Cell) :
  Forall typed cells ->
  ((maxAlloc < stringSize * (maxX cells + 1)
    \/ maxAlloc < sliceSize * (maxY cells + 1))
   /\ initGrid (maxX cells) (maxY cells) = inl MakeSliceLen
   /\ renderGridFromCells cells = ([], Some MakeSliceLen))
  \/ (exists g0, initGrid (maxX cells) (maxY cells) = inr g0
        /\ Exists negative cells
        /\ renderGridFromCells cells = ([], Some IndexOutOfRange))
  \/ (exists g0, initGrid (maxX cells) (maxY cells) = inr g0
        /\ Forall nonNegative cells
        /\ Forall drawable cells
        /\ renderGridFromCells cells
           = ((fun i => renderRow (rowAt (drawn cells) i)) <$> downFrom (maxY cells),
              None)).
Proof.
  intros Hty. destruct (typed_max cells Hty) as [HX HY].
  pose proof (maxX_nonneg cells) as HX0. pose proof (maxY_nonneg cells) as HY0.
  destruct (initGrid (maxX cells) (maxY cells)) as [p|g0] eqn:Hg0.
  { left. apply initGrid_inl in Hg0 as Hp. subst p. split_and!; [|done|].
    - destruct (decide (maxAlloc < stringSize * (maxX cells + 1)
                        \/ maxAlloc < sliceSize * (maxY cells + 1))); [done|].
      rewrite initGrid_ok in Hg0 by lia. done.
    - unfold renderGridFromCells. by rewrite maxXY_pair, Hg0. }
  right.
  destruct (Forall_Exists_dec nonNegative negative
              (fun c => ltac:(unfold nonNegative, negative;
                              destruct (decide (0 <= X c)), (decide (0 <= Y c));
                              [left|right|right|right]; lia)) cells)
    as [Hnn|Hneg].
  - right. exists g0.
    pose proof (allocated_drawable cells g0 Hty Hnn Hg0) as Hall.
    split_and!; [done|done|done|]. by apply render_drawn.
  - left. exists g0. split_and!; [done|done|].
    destruct (initGrid_inr _ _ _ ltac:(split; [exact HX0|exact HX])
                ltac:(split; [exact HY0|exact HY]) Hg0) as [? ?].
    rewrite initGrid_ok in Hg0 by lia. injection Hg0 as <-.
    unfold renderGridFromCells. rewrite maxXY_pair, initGrid_ok by lia.
    rewrite placeAll_poke, shape_blankGrid.
    destruct (forallb _ cells) eqn:Hin; [|done].
    apply Exists_exists in Hneg as (c & Hc & Hneg).
    rewrite forallb_forall in Hin.
    specialize (Hin c (proj1 (list_elem_of_In _ _) Hc)).
    apply inb_replicate_iff in Hin. unfold negative in Hneg. lia.
Qed.

(** X1: on records whose coordinates are of type [int] the renderer prints
    nothing at all when it panics, and otherwise prints its [maxY+1] lines,
    at least one, and ends normally. *)
Theorem render_all_or_nothing (cells : list Cell) :
  Forall typed cells ->
  (exists p, renderGridFromCells cells = ([], Some p))
  \/ (exists lines,
        renderGridFromCells cells = (lines, None)
        /\ Z.of_nat (length lines) = maxY cells + 1
        /\ lines <> []).
Proof.
  intros Hty.
  destruct (render_typed_cases cells Hty)
    as [(_ & _ & ->)|[(g0 & _ & _ & ->)|(g0 & _ & _ & _ & ->)]];
    [left; by eexists..|].
  right. eexists. split; [done|].
  pose proof (maxY_nonneg cells) as HY.
  assert (length ((fun i => renderRow (rowAt (drawn cells) i))
                    <$> downFrom (maxY cells))
          = Z.to_nat (maxY cells + 1)) as Hlen
    by (by rewrite length_fmap, downFrom_length).
  split; [lia|]. intros Hnil. rewrite Hnil in Hlen. simpl in Hlen. lia.
Qed.

Lemma render_all_or_nothing_witness :
  (exists p, renderGridFromCells [mkCell (-1) 0 (str "A")] = ([], Some p))
  \/ (exists lines,
        renderGridFromCells [mkCell (-1) 0 (str "A")] = (lines, None)
        /\ Z.of_nat (length lines) = maxY [mkCell (-1) 0 (str "A")] + 1
        /\ lines <> []).
Proof.
  apply render_all_or_nothing.
  repeat constructor; unfold min_int, max_int, intSize; simpl; lia.
Defined.

Example render_beyond_largest_allocation :
  renderGridFromCells [mkCell (2 ^ 44) 0 (str "A")] = ([], Some MakeSliceLen).
Proof. reflexivity. Qed.

(** X2: what decides the outcome of the renderer: [make] panics exactly when
    a row of [maxX+1] strings or a grid of [maxY+1] rows exceeds the largest
    allocation; once the grid is allocated, a write panics with an index out
    of range exactly when a record has a negative coordinate, and the run
    ends normally exactly when no record has one. *)
Theorem render_outcome (cells : list Cell) :
  Forall typed cells ->
  (snd (renderGridFromCells cells) = Some MakeSliceLen
   <-> maxAlloc < stringSize * (maxX cells + 1)
       \/ maxAlloc < sliceSize * (maxY cells + 1))
  /\ (forall g0, initGrid (maxX cells) (maxY cells) = inr g0 ->
        (snd (renderGridFromCells cells) = Some IndexOutOfRange
         <-> Exists negative cells)
        /\ (snd (renderGridFromCells cells) = None
            <-> Forall nonNegative cells)).
Proof.
  intros Hty. destruct (typed_max cells Hty) as [HX HY].
  pose proof (maxX_nonneg cells) as HX0. pose proof (maxY_nonneg cells) as HY0.
  assert (forall g0, initGrid (maxX cells) (maxY cells) = inr g0 ->
            ~ (maxAlloc < stringSize * (maxX cells + 1)
               \/ maxAlloc < sliceSize * (maxY cells + 1))) as Hfits.
  { intros g0 Hg0.
    destruct (initGrid_inr _ _ _ ltac:(split; [exact HX0|exact HX])
                ltac:(split; [exact HY0|exact HY]) Hg0). lia. }
  destruct (render_typed_cases cells Hty)
    as [(Hlarge & Hinl & ->)|[(g0 & Hg0 & Hneg & ->)|(g0 & Hg0 & Hnn & _ & ->)]];
    simpl.
  - split; [done|]. intros g0 Hg0. congruence.
  - split.
    + split; [done|]. intros Hlarge. by apply Hfits in Hg0.
    + intros _ _. split; [done|]. split; [done|].
      intros Hnn. by apply nonNegative_not_negative in Hnn.
  - split.
    + split; [done|]. intros Hlarge. by apply Hfits in Hg0.
    + intros _ _. split; [|done]. split; [done|].
      intros Hneg. by apply nonNegative_not_negative in Hnn.
Qed.

Lemma render_outcome_witness :
  snd (renderGridFromCells [mkCell 0 0 (str "A"); mkCell 3 (-2) (str "B")])
  = Some IndexOutOfRange.
Proof.
  destruct (render_outcome [mkCell 0 0 (str "A"); mkCell 3 (-2) (str "B")])
    as (_ & Halloc).
  - repeat constructor; unfold is_int, min_int, max_int, intSize; simpl; lia.
  - destruct (Halloc (blankGrid 1 4)) as [Hidx _]; [reflexivity|].
    apply Hidx. apply Exists_cons_tl, Exists_cons_hd. right. simpl. lia.
Defined.

(** ** The content of the grid and of the lines *)

Lemma cellAt_blankGrid (h w : nat) (x y : Z) :
  cellAt (blankGrid h w) x y
  = if decide (0 <= x < Z.of_nat w /\ 0 <= y < Z.of_nat h) then Some blank else None.
Proof.
  unfold cellAt, blankGrid. rewrite (index_spec _ y).
  destruct (decide (0 <= y)) as [Hy|Hy]; [|by rewrite decide_False by lia].
  destruct (decide (y < Z.of_nat h)) as [Hh|Hh].
  - rewrite lookup_replicate_2 by lia. simpl. rewrite index_spec.
    destruct (decide (0 <= x)) as [Hx|Hx]; [|by rewrite decide_False by lia].
    destruct (decide (x < Z.of_nat w)) as [Hw|Hw].
    + rewrite lookup_replicate_2 by lia. by rewrite decide_True by lia.
    + rewrite (proj2 (lookup_ge_None _ _)) by (rewrite length_replicate; lia).
      by rewrite decide_False by lia.
  - rewrite (proj2 (lookup_ge_None _ _)) by (rewrite length_replicate; lia).
    by rewrite decide_False by lia.
Qed.

Lemma cellAt_drawn (cells : list Cell) (x y : Z) :
  Forall drawable cells ->
  cellAt (drawn cells) x y
  = if decide (0 <= x <= maxX cells /\ 0 <= y <= maxY cells)
    then Some (default blank (lastAt cells x y))
    else None.
Proof.
  intros Hall. pose proof (maxX_nonneg cells). pose proof (maxY_nonneg cells).
  unfold drawn. rewrite cellAt_foldl_poke.
  2:{ rewrite shape_blankGrid. apply inb_blank_all.
      eapply Forall_impl; [exact Hall|]. unfold drawable. intros c. lia. }
  rewrite cellAt_blankGrid.
  destruct (lastAt cells x y) as [v|] eqn:Hlast.
  - assert (exists c, c ∈ cells /\ x = X c /\ y = Y c) as (c & Hin & -> & ->).
    { destruct (decide (Forall (fun c => ~ (x = X c /\ y = Y c)) cells)) as [Hno|Hsome].
      - apply lastAt_None in Hno. congruence.
      - apply not_Forall_Exists in Hsome; [|solve_decision].
        apply Exists_exists in Hsome as (c & Hin & Hc).
        exists c. split; [done|]. by apply dec_stable. }
    pose proof (maxX_ge _ _ Hin). pose proof (maxY_ge _ _ Hin).
    rewrite Forall_forall in Hall. destruct (Hall c Hin) as [? ?].
    by rewrite decide_True by lia.
  - simpl. destruct (decide (0 <= x <= maxX cells /\ 0 <= y <= maxY cells)).
    + by rewrite decide_True by lia.
    + by rewrite decide_False by lia.
Qed.

Lemma placeAll_negative (cells : list Cell) (g0 : Grid) :
  Forall typed cells ->
  initGrid (maxX cells) (maxY cells) = inr g0 ->
  Exists negative cells ->
  placeAll g0 cells = None.
Proof.
  intros Hty Hg0 Hneg. destruct (typed_max cells Hty) as [HX HY].
  pose proof (maxX_nonneg cells) as HX0. pose proof (maxY_nonneg cells) as HY0.
  destruct (initGrid_inr (maxX cells) (maxY cells) g0) as [? ?]; [lia|lia|done|].
  rewrite initGrid_ok in Hg0 by lia. injection Hg0 as <-.
  rewrite placeAll_poke, shape_blankGrid.
  destruct (forallb _ cells) eqn:Hin; [|done].
  apply Exists_exists in Hneg as (c & Hc & Hneg).
  rewrite forallb_forall in Hin.
  specialize (Hin c (proj1 (list_elem_of_In _ _) Hc)).
  apply inb_replicate_iff in Hin. unfold negative in Hneg. lia.
Qed.

(** When the placement loop has run to its end, no coordinate is negative
    and the grid is the one of the drawable records. *)
Lemma placed_drawable (cells : list Cell) (g : Grid) :
  Forall typed cells -> placedGrid cells = Some g ->
  Forall drawable cells /\ g = drawn cells.
Proof.
  intros Hty Hg. unfold placedGrid in Hg.
  destruct (initGrid (maxX cells) (maxY cells)) as [p|g0] eqn:Hg0; [done|].
  assert (Forall drawable cells) as Hall.
  { destruct (Forall_Exists_dec nonNegative negative
                (fun c => ltac:(unfold nonNegative, negative;
                                destruct (decide (0 <= X c)), (decide (0 <= Y c));
                                [left|right|right|right]; lia)) cells)
      as [Hnn|Hneg].
    - by eapply allocated_drawable.
    - by rewrite (placeAll_negative cells g0) in Hg. }
  split; [done|]. pose proof (placedGrid_drawable cells Hall) as Hg'.
  unfold placedGrid in Hg'. rewrite Hg0, Hg in Hg'. by injection Hg'.
Qed.

(** X3: after the placement loop the grid is dense: every position of the
    bounding box holds the payload of the last record of that coordinate, or
    one blank when there is no such record, and there is no position outside
    the box. *)
Theorem grid_is_dense (cells : list Cell) (g : Grid) :
  Forall typed cells ->
  placedGrid cells = Some g ->
  (forall x y, 0 <= x <= maxX cells -> 0 <= y <= maxY cells ->
     cellAt g x y = Some (default blank (lastAt cells x y)))
  /\ (forall x y, ~ (0 <= x <= maxX cells /\ 0 <= y <= maxY cells) ->
        cellAt g x y = None).
Proof.
  intros Hty Hg. destruct (placed_drawable cells g Hty Hg) as [Hall ->]. split.
  - intros x y Hx Hy. by rewrite cellAt_drawn, decide_True.
  - intros x y Hout. by rewrite cellAt_drawn, decide_False.
Qed.

Lemma grid_is_dense_witness :
  exists g,
    placedGrid [mkCell 0 1 (str "A"); mkCell 2 0 (str "B")] = Some g
    /\ cellAt g 1 1 = Some blank /\ cellAt g 2 0 = Some (str "B")
    /\ cellAt g 3 0 = None.
Proof.
  exists (drawn [mkCell 0 1 (str "A"); mkCell 2 0 (str "B")]).
  destruct (grid_is_dense [mkCell 0 1 (str "A"); mkCell 2 0 (str "B")]
              (drawn [mkCell 0 1 (str "A"); mkCell 2 0 (str "B")]))
    as (Hin & Hout).
  - repeat constructor; unfold is_int, min_int, max_int, intSize; simpl; lia.
  - reflexivity.
  - split_and!; [reflexivity| | |].
    + apply (Hin 1 1); unfold maxX, maxY, maxXY; simpl; lia.
    + apply (Hin 2 0); unfold maxX, maxY, maxXY; simpl; lia.
    + apply (Hout 3 0). unfold maxX, maxY, maxXY. simpl. lia.
Defined.

Lemma renderRow_blanks (row : list gostring) :
  Forall (fun s => s = blank) row -> renderRow row = [].
Proof.
  intros Hrow. unfold renderRow, TrimRight. apply TrimRightFunc_all.
  rewrite Join_nil_sep. apply Forall_concat.
  eapply Forall_impl; [exact Hrow|]. simpl. intros s ->.
  repeat constructor.
Qed.

Lemma drawn_row_cells (cells : list Cell) (y : Z) (j : nat) :
  Forall drawable cells -> 0 <= y <= maxY cells ->
  rowAt (drawn cells) y !! j = cellAt (drawn cells) (Z.of_nat j) y.
Proof.
  intros Hall Hy. destruct (drawn_row cells y Hy) as (row & Hrow & -> & Hlen).
  unfold cellAt. rewrite Hrow. simpl.
  by rewrite index_spec, decide_True, Nat2Z.id by lia.
Qed.

(** X4: when the placement loop has run to its end, a row of the bounding
    box in which no record lies is printed as an empty line. *)
Theorem row_without_record_prints_empty (cells : list Cell) (g : Grid) (y : Z) :
  Forall typed cells ->
  placedGrid cells = Some g ->
  0 <= y <= maxY cells ->
  Forall (fun c => Y c <> y) cells ->
  exists lines,
    renderGridFromCells cells = (lines, None)
    /\ lines !! Z.to_nat (maxY cells - y) = Some [].
Proof.
  intros Hty Hg Hy Hno. destruct (placed_drawable cells g Hty Hg) as [Hall _].
  destruct (render_drawn cells Hall) as [_ Hr].
  eexists. split; [exact Hr|].
  rewrite list_lookup_fmap, downFrom_lookup by lia. simpl. f_equal.
  replace (maxY cells - Z.of_nat (Z.to_nat (maxY cells - y))) with y by lia.
  apply renderRow_blanks. apply Forall_forall. intros s Hs.
  apply list_elem_of_lookup in Hs as [j Hj].
  destruct (drawn_row cells y Hy) as (row & _ & Hrow & Hlen).
  pose proof (lookup_lt_Some _ _ _ Hj) as Hlt. rewrite Hrow in Hlt.
  rewrite drawn_row_cells, cellAt_drawn, decide_True in Hj by (done || lia).
  replace (lastAt cells (Z.of_nat j) y) with (@None gostring) in Hj.
  - simpl in Hj. congruence.
  - symmetry. apply lastAt_None.
    eapply Forall_impl; [exact Hno|]. simpl. intros c Hc [_ ?]. by apply Hc.
Qed.

Lemma row_without_record_prints_empty_witness :
  exists lines,
    renderGridFromCells [mkCell 0 2 (str "A"); mkCell 2 0 (str "B")] = (lines, None)
    /\ lines !! 1%nat = Some [].
Proof.
  apply (row_without_record_prints_empty
           [mkCell 0 2 (str "A"); mkCell 2 0 (str "B")]
           (drawn [mkCell 0 2 (str "A"); mkCell 2 0 (str "B")]) 1).
  - repeat constructor; unfold is_int, min_int, max_int, intSize; simpl; lia.
  - reflexivity.
  - unfold maxY, maxXY. simpl. lia.
  - repeat constructor; simpl; lia.
Defined.

Lemma printRows_Forall (P : gostring -> Prop) (g : Grid) (idxs : list Z)
    (out : list gostring) :
  (forall row, P (renderRow row)) -> Forall P out ->
  Forall P (fst (printRows g idxs out)).
Proof.
  intros HP. revert out. induction idxs as [|i idxs IH]; intros out Hout; simpl.
  - done.
  - destruct (index g i) as [row|]; [|done].
    apply IH. apply Forall_app. split; [done|]. by repeat constructor.
Qed.

Lemma renderRow_last (row : list gostring) : last (renderRow row) <> Some 32.
Proof.
  unfold renderRow, TrimRight.
  destruct (TrimRightFunc_split (fun r => bool_decide (r ∈ blank)) (Join row []))
    as (_ & _ & _ & Hlast).
  intros H32. specialize (Hlast 32 H32). done.
Qed.

(** X5: no line that the renderer prints ends with a blank, whatever the
    records are, and a printed line is the joined row without a run of
    blanks at its end. *)
Theorem printed_lines_are_right_trimmed (cells : list Cell) :
  Forall (fun line : gostring => last line <> Some 32)
         (fst (renderGridFromCells cells))
  /\ forall row, exists k, Join row [] = renderRow row ++ replicate k 32.
Proof.
  split.
  - unfold renderGridFromCells. destruct (maxXY cells) as [mx my].
    destruct (initGrid mx my) as [p|g0]; [constructor|].
    destruct (placeAll g0 cells) as [g|]; [|constructor].
    apply printRows_Forall; [apply renderRow_last|constructor].
  - intros row. unfold renderRow, TrimRight.
    destruct (TrimRightFunc_split (fun r => bool_decide (r ∈ blank)) (Join row []))
      as (suf & Hs & Hsuf & _).
    exists (length suf). rewrite Hs at 1. f_equal.
    clear Hs. induction Hsuf as [|r suf Hr _ IH]; [done|].
    apply blank_cutset in Hr as ->. simpl. by rewrite <- IH.
Qed.

(** ** Characters at their columns *)

Lemma Forall_poke (P : gostring -> Prop) (g : Grid) (c : Cell) :
  Forall (Forall P) g -> P (C c) -> Forall (Forall P) (poke g c).
Proof.
  unfold poke. intros Hg Hc.
  destruct (g !! Z.to_nat (Y c)) as [row|] eqn:Hrow; [|done].
  apply Forall_insert; [done|]. apply Forall_insert; [|done].
  rewrite Forall_forall in Hg. apply Hg. by eapply list_elem_of_lookup_2.
Qed.

Lemma Forall_drawn (P : gostring -> Prop) (cells : list Cell) :
  P blank -> Forall (fun c => P (C c)) cells -> Forall (Forall P) (drawn cells).
Proof.
  intros Hblank Hall. unfold drawn.
  assert (Forall (Forall P) (blankGrid (Z.to_nat (maxY cells + 1))
                                       (Z.to_nat (maxX cells + 1)))) as Hg
    by (by apply Forall_replicate, Forall_replicate).
  revert Hg. generalize (blankGrid (Z.to_nat (maxY cells + 1))
                                   (Z.to_nat (maxX cells + 1))).
  induction Hall as [|c cs Hc _ IH]; intros g Hg; simpl; [done|].
  by apply IH, Forall_poke.
Qed.

Lemma concat_unit_lookup (row : list gostring) (i : nat) (r : rune) :
  Forall (fun s : gostring => length s = 1%nat) row ->
  row !! i = Some [r] -> concat row !! i = Some r.
Proof.
  intros Hrow. revert i. induction Hrow as [|s row Hs _ IH]; intros i Hi; [done|].
  destruct s as [|a [|? ?]]; try done. simpl.
  destruct i as [|i]; simpl in Hi; [by injection Hi as ->|]. by apply IH.
Qed.

Lemma lastAt_Some_elem (cells : list Cell) (x y : Z) (v : gostring) :
  lastAt cells x y = Some v ->
  exists c, c ∈ cells /\ X c = x /\ Y c = y /\ C c = v.
Proof.
  induction cells as [|c cells IH]; simpl; [done|].
  destruct (lastAt cells x y) as [v'|].
  - intros [= <-]. destruct (IH eq_refl) as (c' & Hin & H). exists c'.
    split; [by right|done].
  - destruct (decide (x = X c /\ y = Y c)) as [[-> ->]|]; [|done].
    intros [= <-]. exists c. split; [by left|done].
Qed.

(** X6: when the placement loop has run to its end and every payload is one
    character, the character of the last record at (x, y), if it is not a
    blank, is the character of index x of the printed line of index
    [maxY - y]. *)
Theorem character_at_its_column (cells : list Cell) (g : Grid) (x y : Z) (r : rune) :
  Forall typed cells ->
  placedGrid cells = Some g ->
  Forall (fun c => length (C c) = 1%nat) cells ->
  lastAt cells x y = Some [r] ->
  r <> 32 ->
  exists lines line,
    renderGridFromCells cells = (lines, None)
    /\ lines !! Z.to_nat (maxY cells - y) = Some line
    /\ line !! Z.to_nat x = Some r.
Proof.
  intros Hty Hplaced Hunit Hlast Hr.
  destruct (placed_drawable cells g Hty Hplaced) as [Hall _].
  destruct (render_drawn cells Hall) as [_ Hrender].
  destruct (lastAt_Some_elem _ _ _ _ Hlast) as (c & Hin & <- & <- & HC).
  pose proof (maxX_ge _ _ Hin) as HX. pose proof (maxY_ge _ _ Hin) as HY.
  pose proof (proj1 (Forall_forall _ _) Hall c Hin) as [[HX0 _] [HY0 _]].
  do 2 eexists. split; [exact Hrender|]. split.
  - rewrite list_lookup_fmap, downFrom_lookup by lia. simpl. reflexivity.
  - replace (maxY cells - Z.of_nat (Z.to_nat (maxY cells - Y c))) with (Y c) by lia.
    unfold renderRow, TrimRight. apply TrimRightFunc_lookup.
    + rewrite Join_nil_sep. apply concat_unit_lookup.
      * assert (Forall (Forall (fun s : gostring => length s = 1%nat)) (drawn cells))
          as Hg by (by apply Forall_drawn).
        destruct (drawn_row cells (Y c)) as (row & Hrow & -> & _); [lia|].
        rewrite Forall_forall in Hg. apply Hg.
        apply index_Some in Hrow as [_ Hrow]. by eapply list_elem_of_lookup_2.
      * rewrite drawn_row_cells, Z2Nat.id, cellAt_drawn, decide_True by (done || lia).
        by rewrite Hlast.
    + apply not_true_iff_false. by rewrite blank_cutset.
Qed.

Lemma character_at_its_column_witness :
  exists lines line,
    renderGridFromCells [mkCell 0 1 (str "A"); mkCell 2 0 (str "B")] = (lines, None)
    /\ lines !! 1%nat = Some line
    /\ line !! 2%nat = Some 66.
Proof.
  apply (character_at_its_column [mkCell 0 1 (str "A"); mkCell 2 0 (str "B")]
           (drawn [mkCell 0 1 (str "A"); mkCell 2 0 (str "B")]) 2 0 66).
  - repeat constructor; unfold is_int, min_int, max_int, intSize; simpl; lia.
  - reflexivity.
  - repeat constructor.
  - reflexivity.
  - discriminate.
Defined.

(** ** The order of the records *)

Lemma lastAt_NoDup (cells : list Cell) (c : Cell) :
  NoDup (coords <$> cells) -> c ∈ cells ->
  lastAt cells (X c) (Y c) = Some (C c).
Proof.
  intros Hnd Hin. destruct (lastAt_elem cells c Hin) as [v Hv]. rewrite Hv.
  destruct (lastAt_Some_elem _ _ _ _ Hv) as (c' & Hin' & HX & HY & <-).
  do 2 f_equal.
  apply list_elem_of_lookup in Hin as [i Hi]. apply list_elem_of_lookup in Hin' as [j Hj].
  assert (i = j) as ->; [|congruence].
  eapply NoDup_lookup; [exact Hnd|..].
  - by rewrite list_lookup_fmap, Hi.
  - rewrite list_lookup_fmap, Hj. simpl. unfold coords. by rewrite HX, HY.
Qed.

Lemma lastAt_Permutation (cells cells' : list Cell) (x y : Z) :
  NoDup (coords <$> cells) -> cells ≡ₚ cells' ->
  lastAt cells x y = lastAt cells' x y.
Proof.
  intros Hnd Hperm.
  assert (NoDup (coords <$> cells')) as Hnd' by (by rewrite <- Hperm).
  assert (forall l l' : list Cell,
            NoDup (coords <$> l') -> (forall c, c ∈ l -> c ∈ l') ->
            forall v, lastAt l x y = Some v -> lastAt l' x y = Some v) as Hsub.
  { intros l l' Hl' Hin v Hv.
    destruct (lastAt_Some_elem _ _ _ _ Hv) as (c & Hc & <- & <- & <-).
    by apply lastAt_NoDup, Hin. }
  destruct (lastAt cells x y) as [v|] eqn:Hv.
  - symmetry. apply (Hsub cells cells'); [done| |done].
    intros c. by rewrite Hperm.
  - destruct (lastAt cells' x y) as [v'|] eqn:Hv'; [|done].
    rewrite <- Hv. apply (Hsub cells' cells); [done| |done].
    intros c. by rewrite Hperm.
Qed.

Lemma maxXY_Permutation (cells cells' : list Cell) :
  cells ≡ₚ cells' -> maxXY cells = maxXY cells'.
Proof.
  intros Hperm. rewrite !maxXY_pair.
  f_equal; apply Z.le_antisymm;
    (apply maxX_le || apply maxY_le); intros c Hc; exists c;
    (split; [|done]); [by rewrite <- Hperm|by rewrite Hperm
                      |by rewrite <- Hperm|by rewrite Hperm].
Qed.

Lemma forallb_Permutation {A} (f : A -> bool) (l l' : list A) :
  l ≡ₚ l' -> forallb f l = forallb f l'.
Proof.
  intros Hperm. apply eq_true_iff_eq. rewrite !forallb_forall.
  split; intros H a Ha%list_elem_of_In; apply H, list_elem_of_In;
    [by rewrite Hperm|by rewrite <- Hperm].
Qed.

(** X7: the order of the records does not matter when no two of them share
    a coordinate: a list and any reordering of it give the same run of the
    renderer. *)
Theorem render_order_irrelevant (cells cells' : list Cell) :
  NoDup (coords <$> cells) ->
  cells ≡ₚ cells' ->
  renderGridFromCells cells = renderGridFromCells cells'.
Proof.
  intros Hnd Hperm. unfold renderGridFromCells.
  rewrite <- (maxXY_Permutation cells cells' Hperm).
  destruct (maxXY cells) as [mx my].
  destruct (initGrid mx my) as [p|g0]; [done|].
  rewrite !placeAll_poke, <- (forallb_Permutation _ cells cells' Hperm).
  destruct (forallb (inb (shape g0)) cells) eqn:Hin; [|done].
  replace (foldl poke g0 cells') with (foldl poke g0 cells); [done|].
  apply grid_ext; [by rewrite !shape_foldl_poke|].
  intros x y. rewrite !cellAt_foldl_poke.
  - by rewrite (lastAt_Permutation cells cells' x y Hnd Hperm).
  - by rewrite <- (forallb_Permutation _ cells cells' Hperm).
  - done.
Qed.

Lemma render_order_irrelevant_witness :
  renderGridFromCells [mkCell 0 1 (str "A"); mkCell 2 0 (str "B")]
  = renderGridFromCells [mkCell 2 0 (str "B"); mkCell 0 1 (str "A")].
Proof.
  apply render_order_irrelevant.
  - apply (bool_decide_unpack _). vm_compute. exact I.
  - apply Permutation_swap.
Defined.

(** ** What the extractor returns and what it logs *)

Lemma Atoi_is_int (s : gostring) (n : Z) : Atoi s = Some n -> is_int n.
Proof.
  unfold Atoi.
  match goal with |- context [match ?v with Some _ => _ | None => None end] =>
    destruct v as [m|] end; [|done].
  destruct ((min_int <=? m) && (m <=? max_int)) eqn:Hb; [|done].
  intros [= <-]. apply andb_prop in Hb as [H1 H2].
  split; by apply Z.leb_le.
Qed.

Lemma specRow_Some (row : Node) (c : Cell) :
  specRow row = Some c <->
  exists c0 c1 c2 rest,
    Find (str "td") [row] = c0 :: c1 :: c2 :: rest
    /\ Atoi (TrimSpace (nodeText c0)) = Some (X c)
    /\ Atoi (TrimSpace (nodeText c2)) = Some (Y c)
    /\ C c = TrimSpace (nodeText c1).
Proof.
  unfold specRow. split.
  - destruct (Find (str "td") [row]) as [|c0 [|c1 [|c2 rest]]]; try done.
    destruct (Atoi (TrimSpace (nodeText c0))) as [x|] eqn:Hx; [|done].
    destruct (Atoi (TrimSpace (nodeText c2))) as [y|] eqn:Hy; [|done].
    intros [= <-]. by exists c0, c1, c2, rest.
  - intros (c0 & c1 & c2 & rest & -> & -> & -> & HC). destruct c. simpl in *.
    by rewrite HC.
Qed.

Lemma parse_tail (doc : Document) :
  parseCharacterGridFromDoc doc = omap specRow (tail (tableRows doc)).
Proof.
  unfold parseCharacterGridFromDoc, extract. rewrite Each_rowFunc.
  by destruct (tableRows doc).
Qed.

Lemma parse_typed (doc : Document) : Forall typed (parseCharacterGridFromDoc doc).
Proof.
  rewrite parse_tail. apply Forall_forall. intros c Hc.
  apply list_elem_of_omap in Hc as (row & _ & Hrow).
  apply specRow_Some in Hrow as (c0 & c1 & c2 & rest & _ & HX & HY & _).
  split; by eapply Atoi_is_int.
Qed.

Lemma Atoi_decimal (s : gostring) (n : Z) :
  Atoi s = Some n <-> decimal s = Some n /\ is_int n.
Proof.
  unfold Atoi. fold (decimal s).
  destruct (decimal s) as [m|]; [|split; [done|by intros [? _]]].
  destruct ((min_int <=? m) && (m <=? max_int)) eqn:Hb.
  - apply andb_prop in Hb as [H1%Z.leb_le H2%Z.leb_le].
    split; [by intros [= <-]|by intros [[= <-] _]].
  - split; [done|]. intros [[= <-] [H1 H2]].
    apply andb_false_iff in Hb as [Hb|Hb]; apply Z.leb_gt in Hb; lia.
Qed.

Lemma Atoi_out_of_range (s : gostring) (n : Z) :
  decimal s = Some n -> ~ is_int n -> Atoi s = None.
Proof.
  intros Hs Hn. destruct (Atoi s) as [m|] eqn:Hm; [|done].
  apply Atoi_decimal in Hm as [Hm ?]. congruence.
Qed.

(** X8: a number that does not fit an [int] is not cut down to one: a row
    after the first whose x or y cell holds such a numeral adds no record and
    is reported like a row without a number; and the coordinates of every
    record that the extractor returns are the exact values of the numerals
    of a row, within the range of [int]. *)
Theorem numbers_out_of_range_are_skipped (doc : Document) :
  (forall (i : nat) (row c0 c1 c2 : Node) (rest : list Node) (st : Extract) (n : Z),
     i <> 0%nat ->
     Find (str "td") [row] = c0 :: c1 :: c2 :: rest ->
     decimal (TrimSpace (nodeText c0)) = Some n
     \/ decimal (TrimSpace (nodeText c2)) = Some n ->
     ~ is_int n ->
     rowFunc i [row] st
     = mkExtract (cells st)
                 (logged st ++ [SkippingInvalidRow (TrimSpace (nodeText c0))
                                                   (TrimSpace (nodeText c2))]))
  /\ (forall c, c ∈ parseCharacterGridFromDoc doc ->
        exists row c0 c1 c2 rest,
          row ∈ tail (tableRows doc)
          /\ Find (str "td") [row] = c0 :: c1 :: c2 :: rest
          /\ decimal (TrimSpace (nodeText c0)) = Some (X c)
          /\ decimal (TrimSpace (nodeText c2)) = Some (Y c)
          /\ is_int (X c) /\ is_int (Y c)).
Proof.
  split.
  - intros i row c0 c1 c2 rest st n Hi Htds Hn Hrange.
    unfold rowFunc. destruct i as [|i]; [done|]. simpl Nat.eqb. cbv iota.
    rewrite Htds, Length_three.
    rewrite (Eq_lookup _ 0 c0), (Eq_lookup _ 2 c2), !Text_singleton by done.
    destruct Hn as [Hn|Hn]; rewrite (Atoi_out_of_range _ n Hn Hrange).
    + done.
    + by destruct (Atoi (TrimSpace (nodeText c0))).
  - intros c Hc. rewrite parse_tail in Hc.
    apply list_elem_of_omap in Hc as (row & Hin & Hrow).
    apply specRow_Some in Hrow as (c0 & c1 & c2 & rest & Htds & HX & HY & _).
    apply Atoi_decimal in HX as [HX ?]. apply Atoi_decimal in HY as [HY ?].
    by exists row, c0, c1, c2, rest.
Qed.

Lemma numbers_out_of_range_are_skipped_witness :
  rowFunc 1 [exRow "9223372036854775808" "A" "0"] (mkExtract [] [])
  = mkExtract [] [SkippingInvalidRow (str "9223372036854775808") (str "0")].
Proof.
  destruct (numbers_out_of_range_are_skipped (exDoc [])) as [Hskip _].
  apply (Hskip 1%nat (exRow "9223372036854775808" "A" "0")
           (el "td" [TextNode (str "9223372036854775808")])
           (el "td" [TextNode (str "A")]) (el "td" [TextNode (str "0")])
           [] (mkExtract [] []) 9223372036854775808).
  - discriminate.
  - reflexivity.
  - left. reflexivity.
  - unfold is_int, min_int, max_int, intSize. simpl. lia.
Defined.

(** X9: the payload of an extracted record has no white space at either end:
    neither its first nor its last character is a space of Unicode. *)
Theorem extracted_payloads_are_trimmed (doc : Document) (c : Cell) (r : rune) :
  c ∈ parseCharacterGridFromDoc doc ->
  head (C c) = Some r \/ last (C c) = Some r ->
  IsSpace r = false.
Proof.
  rewrite parse_tail. intros Hc Hr.
  apply list_elem_of_omap in Hc as (row & _ & Hrow).
  apply specRow_Some in Hrow as (c0 & c1 & c2 & rest & _ & _ & _ & HC).
  rewrite HC in Hr. by eapply TrimSpace_ends.
Qed.

Lemma extracted_payloads_are_trimmed_witness : IsSpace 81 = false.
Proof.
  apply (extracted_payloads_are_trimmed
           (exDoc [exTable [exRow "x" "c" "y"; exRow " 7 " " Q " " -1 "]])
           (mkCell 7 (-1) (str "Q")) 81).
  - vm_compute. left.
  - left. reflexivity.
Defined.

Lemma rowFunc_logged_spec (i : nat) (n : Node) (st : Extract) :
  i <> 0%nat -> logged (rowFunc i [n] st) = logged st ++ option_list (specDiag n).
Proof.
  intros Hi. unfold rowFunc, specDiag.
  destruct i as [|i]; [done|]. simpl Nat.eqb. cbv iota.
  destruct (Find (str "td") [n]) as [|c0 [|c1 [|c2 rest]]] eqn:Htds;
    try (simpl; by rewrite app_nil_r).
  rewrite Length_three.
  rewrite (Eq_lookup _ 0 c0), (Eq_lookup _ 1 c1), (Eq_lookup _ 2 c2) by done.
  rewrite !Text_singleton.
  destruct (Atoi (TrimSpace (nodeText c0))) as [x|],
           (Atoi (TrimSpace (nodeText c2))) as [y|];
    simpl; by rewrite ?app_nil_r.
Qed.

Lemma EachFrom_rowFunc_logged (rows : list Node) (i : nat) (st : Extract) :
  i <> 0%nat ->
  logged (EachFrom rowFunc i rows st) = logged st ++ omap specDiag rows.
Proof.
  revert i st. induction rows as [|r rows IH]; intros i st Hi; simpl.
  - by rewrite app_nil_r.
  - rewrite IH, rowFunc_logged_spec by done.
    rewrite <- app_assoc. f_equal. by destruct (specDiag r).
Qed.

Lemma logged_tail (doc : Document) :
  logged (extract doc) = omap specDiag (tail (tableRows doc)).
Proof.
  unfold extract, Each. destruct (tableRows doc) as [|header rows]; [done|].
  simpl. by rewrite EachFrom_rowFunc_logged.
Qed.

Lemma row_recorded_or_reported (rows : list Node) :
  (length (omap specRow rows) + length (omap specDiag rows))%nat
  = length (List.filter hasThreeCells rows).
Proof.
  induction rows as [|r rows IH]; [done|].
  simpl. unfold specRow at 1, specDiag at 1, hasThreeCells at 1.
  destruct (Find (str "td") [r]) as [|c0 [|c1 [|c2 rest]]]; try done.
  rewrite Length_three. simpl.
  destruct (Atoi (TrimSpace (nodeText c0))) as [x|],
           (Atoi (TrimSpace (nodeText c2))) as [y|]; simpl;
    change (list_omap _ _ specRow rows) with (omap specRow rows);
    change (list_omap _ _ specDiag rows) with (omap specDiag rows); lia.
Qed.

(** X10: every row after the first that has at least three cells gives either
    one record or one diagnostic, and the other rows give neither: the
    records and the diagnostics together are as many as these rows, and there
    are never more records than rows after the first. *)
Theorem rows_recorded_or_reported (doc : Document) :
  (length (parseCharacterGridFromDoc doc) + length (logged (extract doc)))%nat
  = length (List.filter hasThreeCells (tail (tableRows doc)))
  /\ (length (parseCharacterGridFromDoc doc) <= length (tail (tableRows doc)))%nat.
Proof.
  rewrite parse_tail, logged_tail.
  pose proof (row_recorded_or_reported (tail (tableRows doc))) as Hsum.
  split; [done|].
  pose proof (List.filter_length_le hasThreeCells (tail (tableRows doc))). lia.
Qed.

(** X11: the diagnostics are those of the rows after the first that have at
    least three cells of which the first or the third is not an integer, each
    with the trimmed texts of these two cells; a row with fewer than three
    cells is passed over without a diagnostic. *)
Theorem diagnostics_name_bad_coordinates (doc : Document) (m : LogMsg) :
  m ∈ logged (extract doc) <->
  exists row c0 c1 c2 rest,
    row ∈ tail (tableRows doc)
    /\ Find (str "td") [row] = c0 :: c1 :: c2 :: rest
    /\ (Atoi (TrimSpace (nodeText c0)) = None
        \/ Atoi (TrimSpace (nodeText c2)) = None)
    /\ m = SkippingInvalidRow (TrimSpace (nodeText c0)) (TrimSpace (nodeText c2)).
Proof.
  rewrite logged_tail, list_elem_of_omap. split.
  - intros (row & Hin & Hdiag). unfold specDiag in Hdiag.
    destruct (Find (str "td") [row]) as [|c0 [|c1 [|c2 rest]]] eqn:Htds; try done.
    exists row, c0, c1, c2, rest. split_and!; [done|done| |].
    + destruct (Atoi (TrimSpace (nodeText c0))); [|by left].
      destruct (Atoi (TrimSpace (nodeText c2))); [done|by right].
    + destruct (Atoi (TrimSpace (nodeText c0))), (Atoi (TrimSpace (nodeText c2)));
        congruence.
  - intros (row & c0 & c1 & c2 & rest & Hin & Htds & Hbad & ->).
    exists row. split; [done|]. unfold specDiag. rewrite Htds.
    destruct Hbad as [-> | ->]; [done|].
    by destruct (Atoi (TrimSpace (nodeText c0))).
Qed.

(** ** Runs of main *)

Lemma drawable_iff_allocated (cells : list Cell) :
  Forall typed cells ->
  Forall drawable cells
  <-> Forall nonNegative cells
      /\ exists g0, initGrid (maxX cells) (maxY cells) = inr g0.
Proof.
  intros Hty. split.
  - intros Hall. split; [by apply drawable_nonneg|].
    eexists. by apply initGrid_drawable.
  - intros [Hnn [g0 Hg0]]. by eapply allocated_drawable.
Qed.

Section MainRuns.

Variable Body : Type.
Variable Get : gostring -> gostring + Response Body.
Variable NewDocumentFromReader : Body -> gostring + Document.

Lemma parseAndRender_cases (body : Body) :
  (exists err, NewDocumentFromReader body = inl err
               /\ parseAndRender Body NewDocumentFromReader body = fatal [] [] (ParseFailed err))
  \/ (exists doc, NewDocumentFromReader body = inr doc
        /\ parseCharacterGridFromDoc doc = []
        /\ parseAndRender Body NewDocumentFromReader body
           = fatal [PrintDocument doc; PrintCells []] (logged (extract doc))
                   NoValidTableData)
  \/ (exists doc p, NewDocumentFromReader body = inr doc
        /\ parseCharacterGridFromDoc doc <> []
        /\ ~ Forall drawable (parseCharacterGridFromDoc doc)
        /\ renderGridFromCells (parseCharacterGridFromDoc doc) = ([], Some p)
        /\ parseAndRender Body NewDocumentFromReader body
           = mkRun [PrintDocument doc; PrintCells (parseCharacterGridFromDoc doc)]
                   (logged (extract doc)) (Panicked p))
  \/ (exists doc lines, NewDocumentFromReader body = inr doc
        /\ parseCharacterGridFromDoc doc <> []
        /\ Forall drawable (parseCharacterGridFromDoc doc)
        /\ renderGridFromCells (parseCharacterGridFromDoc doc) = (lines, None)
        /\ parseAndRender Body NewDocumentFromReader body
           = mkRun ([PrintDocument doc; PrintCells (parseCharacterGridFromDoc doc)]
                    ++ (GridLine <$> lines))
                   (logged (extract doc)) Returned).
Proof.
  unfold parseAndRender.
  destruct (NewDocumentFromReader body) as [err|doc]; [left; by eexists|].
  right. fold (parseCharacterGridFromDoc doc).
  destruct (parseCharacterGridFromDoc doc) as [|c cs] eqn:Hcells.
  { left. exists doc. split_and!; done. }
  right. change ((length (c :: cs) =? 0)%nat) with false. cbv iota.
  rewrite <- Hcells.
  assert (parseCharacterGridFromDoc doc <> []) as Hne by (by rewrite Hcells).
  destruct (render_typed_cases _ (parse_typed doc))
    as [(Hlarge & _ & Hr)|[(g0 & _ & Hneg & Hr)|(g0 & _ & _ & Hall & Hr)]];
    rewrite Hr.
  - left. exists doc, MakeSliceLen. split_and!; try done.
    intros Hall. pose proof (drawable_maxX _ Hall). pose proof (drawable_maxY _ Hall).
    lia.
  - left. exists doc, IndexOutOfRange. split_and!; try done.
    intros Hall. by apply drawable_not_negative in Hall.
  - right. exists doc. eexists. split_and!; done.
Qed.

Lemma main_cases (Args : list gostring) :
  ((length Args < 2)%nat
   /\ main Body Get NewDocumentFromReader Args = fatal [] [] Usage)
  \/ (exists prog url rest,
        Args = prog :: url :: rest
        /\ ((exists err, Get url = inl err
               /\ main Body Get NewDocumentFromReader Args
                  = fatal [] [] (FetchFailed err))
            \/ (exists resp, Get url = inr resp /\ StatusCode resp <> 200
                  /\ main Body Get NewDocumentFromReader Args
                     = fatal [] [] (FetchStatus (StatusCode resp)))
            \/ (exists resp, Get url = inr resp /\ StatusCode resp = 200
                  /\ main Body Get NewDocumentFromReader Args
                     = parseAndRender Body NewDocumentFromReader (RespBody resp)))).
Proof.
  destruct Args as [|prog [|url rest]]; [left; simpl; split; [lia|done]..|].
  right. exists prog, url, rest. split; [done|]. unfold main.
  destruct (Get url) as [err|resp]; [left; by eexists|]. right.
  destruct (Z.eqb_spec (StatusCode resp) 200) as [Hcode|Hcode]; simpl.
  - right. by exists resp.
  - left. by exists resp.
Qed.

(** X12: there is no partial output: a run of [main] that does not return
    normally, by a fatal exit or by a panic, has written no line of the grid
    to standard output. *)
Theorem no_partial_output (Args : list gostring) :
  status (main Body Get NewDocumentFromReader Args) <> Returned ->
  Forall (fun o => isGridLine o = false)
         (stdout (main Body Get NewDocumentFromReader Args)).
Proof.
  destruct (main_cases Args)
    as [[_ ->]|(prog & url & rest & _ &
                [(err & _ & ->)|[(resp & _ & _ & ->)|(resp & _ & _ & ->)]])];
    try (intros _; constructor).
  destruct (parseAndRender_cases (RespBody resp))
    as [(err & _ & ->)|[(doc & _ & _ & ->)|[(doc & p & _ & _ & _ & _ & ->)
        |(doc & lines & _ & _ & _ & _ & ->)]]]; simpl;
    try (intros _; by repeat constructor).
  done.
Qed.

(** X13: [main] returns normally exactly when it is given a URL, the fetch
    answers with the status 200, the body parses, the extractor returns at
    least one record and only records with non-negative coordinates, and
    [make] allocates the grid. *)
Theorem main_returns_iff (Args : list gostring) :
  status (main Body Get NewDocumentFromReader Args) = Returned
  <-> exists prog url rest resp doc,
        Args = prog :: url :: rest
        /\ Get url = inr resp
        /\ StatusCode resp = 200
        /\ NewDocumentFromReader (RespBody resp) = inr doc
        /\ parseCharacterGridFromDoc doc <> []
        /\ Forall nonNegative (parseCharacterGridFromDoc doc)
        /\ exists g0,
             initGrid (maxX (parseCharacterGridFromDoc doc))
                      (maxY (parseCharacterGridFromDoc doc)) = inr g0.
Proof.
  split.
  - destruct (main_cases Args)
      as [[_ ->]|(prog & url & rest & HArgs &
                  [(err & _ & ->)|[(resp & _ & _ & ->)|(resp & Hget & Hcode & ->)]])];
      try done.
    destruct (parseAndRender_cases (RespBody resp))
      as [(err & _ & ->)|[(doc & _ & _ & ->)|[(doc & p & _ & _ & _ & _ & ->)
          |(doc & lines & Hdoc & Hne & Hall & _ & ->)]]]; try done.
    intros _. apply (drawable_iff_allocated _ (parse_typed doc)) in Hall.
    destruct Hall as [Hnn Hg0]. by exists prog, url, rest, resp, doc.
  - intros (prog & url & rest & resp & doc & -> & Hget & Hcode & Hdoc & Hne & Hnn & Hg0).
    assert (Forall drawable (parseCharacterGridFromDoc doc)) as Hall
      by (by apply (drawable_iff_allocated _ (parse_typed doc))).
    unfold main. rewrite Hget, Hcode. simpl.
    destruct (parseAndRender_cases (RespBody resp))
      as [(err & Herr & _)|[(doc' & Hdoc' & Hnil & _)
          |[(doc' & p & Hdoc' & _ & Hnot & _)|(doc' & lines & _ & _ & _ & _ & ->)]]];
      [congruence|..|done].
    + rewrite Hdoc in Hdoc'. injection Hdoc' as <-. done.
    + rewrite Hdoc in Hdoc'. injection Hdoc' as <-. done.
Qed.

(** X14: a successful run: when the extractor returns at least one record,
    no coordinate is negative and [make] allocates the grid, [main] returns
    with the exit status 0; standard output holds the two debugging prints
    and then the [maxY+1] lines of the grid, and the logger holds the
    diagnostics of the extractor and nothing else. *)
Theorem successful_run
    (prog url : gostring) (rest : list gostring) (resp : Response Body)
    (doc : Document) (g0 : Grid) :
  Get url = inr resp ->
  StatusCode resp = 200 ->
  NewDocumentFromReader (RespBody resp) = inr doc ->
  parseCharacterGridFromDoc doc <> [] ->
  Forall nonNegative (parseCharacterGridFromDoc doc) ->
  initGrid (maxX (parseCharacterGridFromDoc doc))
           (maxY (parseCharacterGridFromDoc doc)) = inr g0 ->
  exists lines,
    renderGridFromCells (parseCharacterGridFromDoc doc) = (lines, None)
    /\ Z.of_nat (length lines) = maxY (parseCharacterGridFromDoc doc) + 1
    /\ main Body Get NewDocumentFromReader (prog :: url :: rest)
       = mkRun ([PrintDocument doc; PrintCells (parseCharacterGridFromDoc doc)]
                ++ (GridLine <$> lines))
               (logged (extract doc)) Returned
    /\ exitCode (status (main Body Get NewDocumentFromReader (prog :: url :: rest))) = 0.
Proof.
  intros Hget Hcode Hdoc Hne Hnn Hg0.
  pose proof (allocated_drawable _ g0 (parse_typed doc) Hnn Hg0) as Hall.
  destruct (render_drawn _ Hall) as [_ Hr].
  pose proof (maxY_nonneg (parseCharacterGridFromDoc doc)) as HY.
  assert (main Body Get NewDocumentFromReader (prog :: url :: rest)
          = mkRun ([PrintDocument doc; PrintCells (parseCharacterGridFromDoc doc)]
                   ++ (GridLine <$> fst (renderGridFromCells (parseCharacterGridFromDoc doc))))
                  (logged (extract doc)) Returned) as Hmain.
  { unfold main. rewrite Hget, Hcode. simpl.
    destruct (parseAndRender_cases (RespBody resp))
      as [(err & Herr & _)|[(doc' & Hdoc' & Hnil & _)
          |[(doc' & p & Hdoc' & _ & Hnot & _)|(doc' & lines & Hdoc' & _ & _ & Hr' & ->)]]];
      [congruence|..];
      rewrite Hdoc in Hdoc'; injection Hdoc' as <-; try done.
    by rewrite Hr'. }
  eexists. split; [exact Hr|]. rewrite Hmain, Hr. simpl.
  split_and!; [|done|done].
  rewrite length_fmap, downFrom_length. lia.
Qed.

End MainRuns.

Lemma no_partial_output_witness :
  Forall (fun o => isGridLine o = false)
    (stdout (main unit (fun _ => inr (mkResponse 200 tt))
               (fun _ => inr (exDoc [exTable [exRow "x" "c" "y"; exRow "-1" "A" "0"]]))
               [str "decoder"; str "https://example.org/doc"])).
Proof.
  apply no_partial_output. vm_compute. discriminate.
Defined.

Lemma successful_run_witness :
  exists lines,
    main unit (fun _ => inr (mkResponse 200 tt))
         (fun _ => inr (exDoc [exTable [exRow "x" "c" "y"; exRow "0" "A" "1";
                                        exRow "2" "B" "0"]]))
         [str "decoder"; str "https://example.org/doc"]
    = mkRun ([PrintDocument (exDoc [exTable [exRow "x" "c" "y"; exRow "0" "A" "1";
                                             exRow "2" "B" "0"]]);
              PrintCells [mkCell 0 1 (str "A"); mkCell 2 0 (str "B")]]
             ++ (GridLine <$> lines))
            [] Returned.
Proof.
  destruct (successful_run unit (fun _ => inr (mkResponse 200 tt))
              (fun _ => inr (exDoc [exTable [exRow "x" "c" "y"; exRow "0" "A" "1";
                                             exRow "2" "B" "0"]]))
              (str "decoder") (str "https://example.org/doc") []
              (mkResponse 200 tt)
              (exDoc [exTable [exRow "x" "c" "y"; exRow "0" "A" "1";
                               exRow "2" "B" "0"]])
              (blankGrid 2 3))
    as (lines & _ & _ & Hmain & _).
  - reflexivity.
  - reflexivity.
  - reflexivity.
  - vm_compute. discriminate.
  - change (Forall nonNegative [mkCell 0 1 (str "A"); mkCell 2 0 (str "B")]).
    repeat constructor; simpl; lia.
  - reflexivity.
  - exists lines. exact Hmain.
Defined.

(** ** Edges of the input *)

(** X15: a document without a table, or whose first table has no row after
    the first one, gives no record and no diagnostic. *)
Theorem no_data_rows_no_records (doc : Document) :
  DocFind (str "table") doc = [] \/ (length (tableRows doc) <= 1)%nat ->
  extract doc = mkExtract [] [].
Proof.
  intros Hrows.
  assert (tail (tableRows doc) = []) as Htail.
  { destruct Hrows as [Hno|Hone].
    - by rewrite tableRows_spec, Hno.
    - destruct (tableRows doc) as [|? [|? ?]]; simpl in *; [done|done|lia]. }
  pose proof (parse_tail doc) as Hc. pose proof (logged_tail doc) as Hl.
  rewrite Htail in Hc, Hl. unfold parseCharacterGridFromDoc in Hc.
  destruct (extract doc) as [cs log]. simpl in *. by subst.
Qed.

Lemma no_data_rows_no_records_witness :
  extract (exDoc [exTable [exRow "0" "A" "0"]]) = mkExtract [] [].
Proof.
  apply no_data_rows_no_records. right. vm_compute. lia.
Defined.

Section MainEdges.

Variable Body : Type.
Variable Get : gostring -> gostring + Response Body.
Variable NewDocumentFromReader : Body -> gostring + Document.

(** X16: the extractor accepts a negative number as a coordinate and the
    renderer does not check it: a document with such a record ends the run
    by a panic, with the exit status 2, after the two debugging prints and
    without any line of the grid. *)
Theorem negative_coordinate_panics
    (prog url : gostring) (rest : list gostring) (resp : Response Body)
    (doc : Document) (c : Cell) :
  Get url = inr resp ->
  StatusCode resp = 200 ->
  NewDocumentFromReader (RespBody resp) = inr doc ->
  c ∈ parseCharacterGridFromDoc doc ->
  X c < 0 \/ Y c < 0 ->
  exists p,
    main Body Get NewDocumentFromReader (prog :: url :: rest)
    = mkRun [PrintDocument doc; PrintCells (parseCharacterGridFromDoc doc)]
            (logged (extract doc)) (Panicked p)
    /\ exitCode (status (main Body Get NewDocumentFromReader (prog :: url :: rest))) = 2.
Proof.
  intros Hget Hcode Hdoc Hc Hneg.
  assert (~ Forall drawable (parseCharacterGridFromDoc doc)) as Hnot.
  { intros Hall. apply drawable_not_negative in Hall. apply Hall.
    apply Exists_exists. by exists c. }
  unfold main. rewrite Hget, Hcode. simpl.
  destruct (parseAndRender_cases Body NewDocumentFromReader (RespBody resp))
    as [(err & Herr & _)|[(doc' & Hdoc' & Hnil & _)
        |[(doc' & p & Hdoc' & _ & _ & _ & ->)|(doc' & lines & Hdoc' & _ & Hall & _)]]];
    [congruence|..]; rewrite Hdoc in Hdoc'; injection Hdoc' as <-.
  - rewrite Hnil in Hc. by apply elem_of_nil in Hc.
  - by exists p.
  - done.
Qed.

(** X17: the usage error is the outcome of exactly the runs with fewer than
    two arguments: nothing is fetched, and the only thing written is the
    usage message. *)
Theorem usage_error_iff (Args : list gostring) :
  main Body Get NewDocumentFromReader Args = fatal [] [] Usage
  <-> (length Args < 2)%nat.
Proof.
  destruct (main_cases Body Get NewDocumentFromReader Args)
    as [[Hlen ->]|(prog & url & rest & -> &
                   [(err & _ & ->)|[(resp & _ & _ & ->)|(resp & _ & _ & ->)]])];
    [done|split; [done|simpl; lia]..|].
  split; [|simpl; lia]. intros Hrun.
  destruct (parseAndRender_cases Body NewDocumentFromReader (RespBody resp))
    as [(err & _ & Heq)|[(doc & _ & _ & Heq)|[(doc & p & _ & _ & _ & _ & Heq)
        |(doc & lines & _ & _ & _ & _ & Heq)]]];
    rewrite Heq in Hrun; done.
Qed.

(** X18: the [main] of main.go and the [main] that renders agree on every
    run that fails before the extraction: the same messages and the same
    exit; when the first returns, it has printed the document, which is also
    the first print of the second. *)
Theorem main_go_agrees (Args : list gostring) :
  (status (MainGo.main Body Get NewDocumentFromReader Args) = Fatal
   /\ main Body Get NewDocumentFromReader Args
      = MainGo.main Body Get NewDocumentFromReader Args)
  \/ (exists doc,
        MainGo.main Body Get NewDocumentFromReader Args
        = mkRun [PrintDocument doc] [] Returned
        /\ take 2 (stdout (main Body Get NewDocumentFromReader Args))
           = [PrintDocument doc; PrintCells (parseCharacterGridFromDoc doc)]).
Proof.
  unfold MainGo.main, main.
  destruct Args as [|prog [|url rest]]; [by left..|].
  destruct (Get url) as [err|resp]; [by left|].
  destruct (negb (StatusCode resp =? 200)); [by left|].
  unfold parseAndRender.
  destruct (NewDocumentFromReader (RespBody resp)) as [err|doc]; [by left|].
  right. exists doc. split; [done|].
  fold (parseCharacterGridFromDoc doc).
  destruct (length (parseCharacterGridFromDoc doc) =? 0)%nat; [done|].
  by destruct (renderGridFromCells (parseCharacterGridFromDoc doc)).
Qed.

End MainEdges.

Lemma negative_coordinate_panics_witness :
  exists p,
    main unit (fun _ => inr (mkResponse 200 tt))
         (fun _ => inr (exDoc [exTable [exRow "x" "c" "y"; exRow "-1" "A" "0"]]))
         [str "decoder"; str "https://example.org/doc"]
    = mkRun [PrintDocument (exDoc [exTable [exRow "x" "c" "y"; exRow "-1" "A" "0"]]);
             PrintCells [mkCell (-1) 0 (str "A")]]
            [] (Panicked p).
Proof.
  destruct (negative_coordinate_panics unit (fun _ => inr (mkResponse 200 tt))
              (fun _ => inr (exDoc [exTable [exRow "x" "c" "y"; exRow "-1" "A" "0"]]))
              (str "decoder") (str "https://example.org/doc") []
              (mkResponse 200 tt)
              (exDoc [exTable [exRow "x" "c" "y"; exRow "-1" "A" "0"]])
              (mkCell (-1) 0 (str "A")))
    as (p & Hmain & _).
  - reflexivity.
  - reflexivity.
  - reflexivity.
  - vm_compute. left.
  - left. simpl. lia.
  - exists p. exact Hmain.
Defined.

(** ** One more record *)

Lemma maxXY_snoc (cells : list Cell) (c : Cell) :
  X c <= maxX cells -> Y c <= maxY cells ->
  maxX (cells ++ [c]) = maxX cells /\ maxY (cells ++ [c]) = maxY cells.
Proof.
  intros HX HY. unfold maxX, maxY, maxXY in *. rewrite foldl_app.
  change (foldl maxStep (foldl maxStep (0, 0) cells) [c])
    with (maxStep (foldl maxStep (0, 0) cells) c).
  rewrite maxStep_max. simpl. lia.
Qed.

Lemma rowAt_poke_ne (g : Grid) (c : Cell) (i : Z) :
  0 <= Y c -> i <> Y c -> rowAt (poke g c) i = rowAt g i.
Proof.
  intros HY Hi. unfold rowAt, poke. rewrite !index_spec.
  destruct (decide (0 <= i)); [|done].
  destruct (g !! Z.to_nat (Y c)); [|done].
  by rewrite list_lookup_insert_ne by lia.
Qed.

(** X19: when the placement loop runs to its end on a list, a record
    appended inside the bounding box changes at most the line of its own
    row: the run prints as many lines as before, and every other line is the
    same. *)
Theorem appended_record_changes_one_line (cells : list Cell) (g : Grid) (c : Cell) :
  Forall typed cells ->
  placedGrid cells = Some g ->
  0 <= X c <= maxX cells ->
  0 <= Y c <= maxY cells ->
  exists lines lines',
    renderGridFromCells cells = (lines, None)
    /\ renderGridFromCells (cells ++ [c]) = (lines', None)
    /\ length lines' = length lines
    /\ forall k : nat, k <> Z.to_nat (maxY cells - Y c) -> lines' !! k = lines !! k.
Proof.
  intros Hty Hg HX HY. destruct (placed_drawable cells g Hty Hg) as [Hall _].
  destruct (maxXY_snoc cells c) as [HmX HmY]; [lia|lia|].
  pose proof (drawable_maxX _ Hall) as HXm. pose proof (drawable_maxY _ Hall) as HYm.
  assert (Forall drawable (cells ++ [c])) as Hall'.
  { apply Forall_app. split; [done|].
    repeat constructor; unfold stringSize, sliceSize in *; lia. }
  destruct (render_drawn cells Hall) as [_ Hr].
  destruct (render_drawn (cells ++ [c]) Hall') as [_ Hr'].
  assert (drawn (cells ++ [c]) = poke (drawn cells) c) as Hdrawn.
  { unfold drawn. by rewrite HmX, HmY, foldl_app. }
  do 2 eexists. split; [exact Hr|]. split; [exact Hr'|].
  rewrite HmY, Hdrawn. split; [by rewrite !length_fmap|].
  intros k Hk. rewrite !list_lookup_fmap.
  destruct (downFrom (maxY cells) !! k) as [i|] eqn:Hi; [|done]. simpl.
  pose proof (lookup_lt_Some _ _ _ Hi) as Hlt. rewrite downFrom_length in Hlt.
  rewrite downFrom_lookup in Hi by done. injection Hi as <-.
  rewrite rowAt_poke_ne; [done|lia|lia].
Qed.

Lemma appended_record_changes_one_line_witness :
  exists lines lines',
    renderGridFromCells [mkCell 0 1 (str "A"); mkCell 2 0 (str "B")] = (lines, None)
    /\ renderGridFromCells [mkCell 0 1 (str "A"); mkCell 2 0 (str "B");
                            mkCell 1 0 (str "C")]
       = (lines', None)
    /\ length lines' = length lines
    /\ lines' !! 0%nat = lines !! 0%nat.
Proof.
  destruct (appended_record_changes_one_line
              [mkCell 0 1 (str "A"); mkCell 2 0 (str "B")]
              (drawn [mkCell 0 1 (str "A"); mkCell 2 0 (str "B")])
              (mkCell 1 0 (str "C")))
    as (lines & lines' & Hr & Hr' & Hlen & Hk).
  - repeat constructor; unfold is_int, min_int, max_int, intSize; simpl; lia.
  - reflexivity.
  - unfold maxX, maxXY. simpl. lia.
  - unfold maxY, maxXY. simpl. lia.
  - exists lines, lines'. split_and!; [exact Hr|exact Hr'|exact Hlen|].
    apply Hk. discriminate.
Defined.
